(** * ICIE: the orchestrator (build / test / init / submit) and the
      worker bridge's frame decoding, embedded shallowly.

    The orchestrator is the class [ICIE] of the extension entry point; the
    bridge is [Logic] of [icie-ui/src/native.ts].  Asynchronous methods are
    modelled in a state-and-exception monad: a promise that is fulfilled is
    [Ok], a promise that is rejected (or a [throw]) is [Err].  Everything the
    orchestrator reaches outside of itself (the editor API, the file system
    helpers of [./afs], the worker calls of [./ci], [./conf], [./manifest],
    [os.homedir], [Math.random]) is an operation of a [Platform], over an
    arbitrary type of worlds; the orchestrator's theorems hold for every
    platform.  The editor glue of the entry point (the construction of the
    object and the registration of the commands in [activate], the cursor
    placement of [launch]) takes no part in build, test, init or submit
    and is left out; the methods are embedded for any [this]. *)

From Stdlib Require Import ZArith NArith Lia Strings.Byte.
From stdpp Require Import base list strings gmap.

Local Open Scope string_scope.
Local Open Scope list_scope.

(** ** JavaScript values used by the orchestrator *)

(** What a rejected promise carries. *)
Inductive Exn : Type :=
| Thrown (s : string)       (* [throw "..."], [Promise.reject('...')] *)
| JsError (message : string) (* [throw new Error("...")] *)
| External (what : string)   (* a failure raised by a collaborator *).

Inductive Result (A : Type) : Type :=
| Ok (a : A)
| Err (e : Exn).
Arguments Ok {A} a.
Arguments Err {A} e.

(** [fs.Stats], of which only [mtime] is read (milliseconds). *)
Record Stats : Type := { mtime : Z }.

(** [vscode.InputBoxOptions]: every field is optional; [password] is the one
    that "controls if a password input is shown". *)
Record InputBoxOptions : Type := {
  prompt : option string;
  placeHolder : option string;
  password : option bool;
  ignoreFocusOut : option bool;
}.

(** The object literal [{ prompt: p }]. *)
Definition prompt_only (p : string) : InputBoxOptions :=
  {| prompt := Some p; placeHolder := None; password := None;
     ignoreFocusOut := None |}.

(** Whether the editor hides the typed text for these options. *)
Definition masked (o : InputBoxOptions) : bool :=
  match password o with
  | Some true => true
  | _ => false
  end.

Record AuthRequest : Type := { domain : string }.
Record AuthResponse : Type := { username : string; auth_password : string }.
Record Manifest : Type := { task_url : string }.
Record Template : Type := { template_path : string }.
Record Config : Type := { template : Template }.

(** A sample of [Math.random()], a double in the half-open unit interval.
    The orchestrator does one thing with a sample: [Math.floor(sample * n)],
    for the length [n] of an array.  [scaled n] is that number as the
    floating-point product gives it, which need not be the floor of the
    exact product.  It is an index into the array: rounded to a double, the
    product of a double below one and the length of an array stays below
    that length. *)
Record UnitSample : Type := {
  scaled : nat -> nat;
  scaled_range : forall n, 0 < n -> (N.of_nat n < 2 ^ 32)%N -> scaled n < n;
}.

(** [String.prototype.substr(start, length)]. *)
Definition js_substr (s : string) (start len : Z) : string :=
  let size := Z.of_nat (String.length s) in
  let st := if (start <? 0)%Z then Z.max (size + start) 0 else Z.min start size in
  let ln := Z.min (Z.max len 0) (size - st) in
  String.substring (Z.to_nat st) (Z.to_nat ln) s.

(** String conversion of a possibly undefined string, as [+] does it. *)
Definition js_string_of (x : option string) : string :=
  match x with
  | Some s => s
  | None => "undefined"
  end.

(** ** [class Directory] *)

Module Directory.

Record t : Type := { base : string }.

Definition new (base : string) : t := {| base := base |}.

Definition source (this : t) : string := base this +:+ "/main.cpp".

Definition executable (this : t) : string :=
  let source := source this in
  js_substr source 0 (Z.of_nat (String.length source) - 4) +:+ ".e".

Definition testsDirectory (this : t) : string := base this +:+ "/tests".

End Directory.

(** ** Effects *)

(** One entry per call that leaves the orchestrator, in program order. *)
Inductive Event : Type :=
| EvSaveAll
| EvShowInputBox (options : InputBoxOptions) (answer : option string)
| EvOpenFolder (path : string) (newWindow : bool)
| EvStat (path : string) (r : Result Stats)
| EvExists (path : string) (r : Result bool)
| EvMkdir (path : string)
| EvCopy (from to : string)
| EvBuild (source : string)
| EvTest (executable testdir : string) (r : Result bool)
| EvInit (task_url project_dir : string) (challenge : option AuthRequest)
| EvSubmit (source task_url : string) (challenge : option AuthRequest)
| EvAuthResponse (resp : AuthResponse)
| EvConfLoad (r : Result Config)
| EvManifestSave (path : string) (m : Manifest)
| EvManifestLoad (path : string).

(** The collaborators of the orchestrator, over worlds [W].  An operation
    that can fail returns a [Result].  The editor's [saveAll] and
    [showInputBox] resolve always (to a boolean, to a string or
    [undefined]), and so do [os.homedir] and [Math.random]. *)
Class Platform (W : Type) : Type := {
  (* the editor *)
  vscode_saveAll : W -> bool * W;
  vscode_showInputBox : InputBoxOptions -> W -> option string * W;
  vscode_openFolder : string -> bool -> W -> Result unit * W;
  vscode_rootPath : W -> option string;
  (* the runtime *)
  os_homedir : W -> string;
  Math_random : W -> UnitSample * W;
  (* ./afs *)
  afs_stat : string -> W -> Result Stats * W;
  afs_exists : string -> W -> Result bool * W;
  afs_mkdir : string -> W -> Result unit * W;
  afs_copy : string -> string -> W -> Result unit * W;
  (* ./ci: the worker *)
  ci_build : string -> W -> Result unit * W;
  ci_test : string -> string -> W -> Result bool * W;
  ci_init_send : string -> string -> W -> Result (option AuthRequest) * W;
  ci_submit_send : string -> string -> W -> Result (option AuthRequest) * W;
  ci_auth_reply : AuthResponse -> W -> Result unit * W;
  (* ./conf and ./manifest *)
  conf_load : W -> Result Config * W;
  mnfst_save : string -> Manifest -> W -> Result unit * W;
  mnfst_load : string -> W -> Result Manifest * W;
}.

Record State (W : Type) : Type := {
  world : W;
  trace : list Event;
  console : list string;
}.
Arguments world {W} _.
Arguments trace {W} _.
Arguments console {W} _.

Definition M (W A : Type) : Type := State W -> Result A * State W.

Definition ret {W A} (a : A) : M W A := fun s => (Ok a, s).

Definition throw {W A} (e : Exn) : M W A := fun s => (Err e, s).

Definition bind {W A B} (m : M W A) (k : A -> M W B) : M W B :=
  fun s =>
    match m s with
    | (Ok a, s') => k a s'
    | (Err e, s') => (Err e, s')
    end.

(** [try { m } catch (err) { h }] *)
Definition try_catch {W A} (m : M W A) (h : Exn -> M W A) : M W A :=
  fun s =>
    match m s with
    | (Ok a, s') => (Ok a, s')
    | (Err e, s') => h e s'
    end.

Declare Scope js_scope.
Delimit Scope js_scope with js.
Notation "x <- m ;; k" := (bind m (fun x => k))
  (at level 100, m at next level, right associativity) : js_scope.
Notation "m ;; k" := (bind m (fun _ => k))
  (at level 100, right associativity) : js_scope.

(** A collaborator call: run it on the world, record the event. *)
Definition call {W A} (op : W -> Result A * W) (ev : Result A -> Event) : M W A :=
  fun s =>
    let '(r, w) := op (world s) in
    (r, {| world := w; trace := trace s ++ [ev r]; console := console s |}).

(** A read of the environment that no collaborator sees. *)
Definition peek {W A} (f : W -> A) : M W A := fun s => (Ok (f (world s)), s).

Definition console_log {W} (msg : string) : M W unit :=
  fun s => (Ok tt, {| world := world s; trace := trace s;
                      console := console s ++ [msg] |}).

Local Open Scope js_scope.

(** ** The collaborators as monadic calls *)

Module vscode.

(** [vscode.workspace.saveAll(false)]; resolves to a boolean. *)
Definition workspace_saveAll {W} `{Platform W} : M W bool :=
  call (fun w => let '(b, w') := vscode_saveAll w in (Ok b, w'))
       (fun _ => EvSaveAll).

(** [vscode.window.showInputBox(options)]; [None] is [undefined], the
    value of a dismissed box. *)
Definition window_showInputBox {W} `{Platform W} (options : InputBoxOptions)
  : M W (option string) :=
  fun s =>
    let '(a, w) := vscode_showInputBox options (world s) in
    (Ok a, {| world := w;
              trace := trace s ++ [EvShowInputBox options a];
              console := console s |}).

(** [vscode.commands.executeCommand('vscode.openFolder', Uri.file(p), n)] *)
Definition openFolder {W} `{Platform W} (path : string) (newWindow : bool)
  : M W unit :=
  call (vscode_openFolder path newWindow) (fun _ => EvOpenFolder path newWindow).

Definition workspace_rootPath {W} `{Platform W} : M W (option string) :=
  peek vscode_rootPath.

End vscode.

Definition homedir {W} `{Platform W} : M W string := peek os_homedir.

(** [Math.random()] *)
Definition random {W} `{Platform W} : M W UnitSample :=
  fun s =>
    let '(u, w) := Math_random (world s) in
    (Ok u, {| world := w; trace := trace s; console := console s |}).

Module afs.

Definition stat {W} `{Platform W} (path : string) : M W Stats :=
  call (afs_stat path) (EvStat path).

Definition exists_ {W} `{Platform W} (path : string) : M W bool :=
  call (afs_exists path) (EvExists path).

Definition mkdir {W} `{Platform W} (path : string) : M W unit :=
  call (afs_mkdir path) (fun _ => EvMkdir path).

Definition copy {W} `{Platform W} (from to : string) : M W unit :=
  call (afs_copy from to) (fun _ => EvCopy from to).

End afs.

Module conf.

Definition load {W} `{Platform W} : M W Config :=
  call conf_load EvConfLoad.

End conf.

Module mnfst.

Definition save {W} `{Platform W} (path : string) (m : Manifest) : M W unit :=
  call (mnfst_save path m) (fun _ => EvManifestSave path m).

Definition load {W} `{Platform W} (path : string) : M W Manifest :=
  call (mnfst_load path) (fun _ => EvManifestLoad path).

End mnfst.

Definition challenge_of (r : Result (option AuthRequest)) : option AuthRequest :=
  match r with
  | Ok c => c
  | Err _ => None
  end.

Module ci.

Definition build {W} `{Platform W} (source : string) : M W unit :=
  call (ci_build source) (fun _ => EvBuild source).

Definition test {W} `{Platform W} (executable testdir : string) : M W bool :=
  call (ci_test executable testdir) (EvTest executable testdir).

(** Modelled from the spec: [ci.init] of the module [./ci], which is not
    among the sources.  The init command is sent to the worker; the worker
    may raise an authentication challenge mid-flight, at most one per call;
    the call is then suspended until the callback has produced the
    credentials, which are sent back, and only then does the worker's init
    continue. *)
Definition init {W} `{Platform W} (task_url project_dir : string)
    (authreq_handler : AuthRequest -> M W AuthResponse) : M W unit :=
  challenge <- call (ci_init_send task_url project_dir)
                    (fun r => EvInit task_url project_dir (challenge_of r));;
  match challenge with
  | None => ret tt
  | Some authreq =>
      resp <- authreq_handler authreq;;
      call (ci_auth_reply resp) (fun _ => EvAuthResponse resp)
  end.

(** Modelled from the spec: [ci.submit] of the module [./ci], which is not
    among the sources.  The submit command is sent to the worker; as for
    [init], at most one authentication challenge may be raised, and it is
    answered through the callback before the worker continues. *)
Definition submit {W} `{Platform W} (source task_url : string)
    (authreq_handler : AuthRequest -> M W AuthResponse) : M W unit :=
  challenge <- call (ci_submit_send source task_url)
                    (fun r => EvSubmit source task_url (challenge_of r));;
  match challenge with
  | None => ret tt
  | Some authreq =>
      resp <- authreq_handler authreq;;
      call (ci_auth_reply resp) (fun _ => EvAuthResponse resp)
  end.

End ci.

(** ** Free functions of the entry point *)

(** [xs[Math.floor(Math.random() * xs.length)]]; an index past the end
    reads [undefined]. *)
Definition choice {W A} `{Platform W} (xs : list A) : M W (option A) :=
  u <- random;;
  let i := scaled u (length xs) in
  ret (xs !! i).

Definition inputbox {W} `{Platform W} (options : InputBoxOptions) : M W string :=
  maybe <- vscode.window_showInputBox options;;
  match maybe with
  | Some answer => ret answer
  | None => throw (JsError "did not get input on input box")
  end.

Definition unwrap {W A} (x : option A) : M W A :=
  match x with
  | Some v => ret v
  | None => throw (Thrown "unwrap of undefined")
  end.

(** ** [class ICIE] *)

Module ICIE.

Record t : Type := { dir : Directory.t }.

Definition adjectives : list string :=
  [ "playful"; "shining"; "sparkling"; "rainbow"; "kawaii";
    "superb"; "amazing"; "glowing"; "blessed"; "smiling" ].

Definition animals : list string :=
  [ "capybara"; "squirrel"; "spider"; "anteater"; "hamster";
    "whale"; "eagle"; "zebra"; "dolphin"; "hedgehog" ].

Section Methods.

Context {W : Type} `{Platform W}.
Variable this : t.

Definition assureAllSaved : M W unit :=
  vscode.workspace_saveAll;; ret tt.

Definition triggerBuild : M W unit :=
  console_log "ICIE.@triggerBuild";;
  assureAllSaved;;
  let source := Directory.source (dir this) in
  ci.build source.

Definition requiresCompilation : M W bool :=
  console_log "ICIE.@assureCompiled";;
  let src := Directory.source (dir this) in
  console_log ("[ICIE.assureCompiled] Checking whether " +:+ src +:+ " is compiled");;
  let exe := Directory.executable (dir this) in
  assureAllSaved;;
  console_log "ICIE.@assureCompiled All files have been saved";;
  statsrc <- afs.stat src;;
  caught <- try_catch
              (statexe <- afs.stat exe;; ret (inl statexe))
              (fun err =>
                 console_log ("ICIE.@assureCompiled " +:+ src +:+ " needs compiling");;
                 ret (inr true));;
  match caught with
  | inr early => ret early
  | inl statexe =>
      if (mtime statsrc <=? mtime statexe)%Z then
        console_log ("[ICIE.assureCompiled] " +:+ src +:+ " was compiled already");;
        ret false
      else
        console_log ("[ICIE.assureCompiled] " +:+ src +:+ " needs compiling");;
        ret true
  end.

Definition assureCompiled : M W unit :=
  console_log "ICIE.@assureCompiled";;
  b <- requiresCompilation;;
  if b then triggerBuild else ret tt.

Definition triggerTest : M W bool :=
  assureCompiled;;
  let executable := Directory.executable (dir this) in
  let testdir := Directory.testsDirectory (dir this) in
  console_log ("[ICIE.triggerTest] Checking " +:+ executable +:+ " agains " +:+ testdir);;
  ci.test executable testdir.

Definition assureTested : M W unit :=
  passed <- triggerTest;;
  if negb passed then throw (Thrown "Not all tests passed") else ret tt.

Definition respondAuthreq (authreq : AuthRequest) : M W AuthResponse :=
  username <- inputbox (prompt_only ("Username at " +:+ domain authreq));;
  password <- inputbox (prompt_only ("Password for " +:+ username +:+ " at " +:+ domain authreq));;
  ret {| username := username; auth_password := password |}.

Definition triggerSubmit : M W unit :=
  console_log "ICIE Submit triggered";;
  assureTested;;
  root <- vscode.workspace_rootPath;;
  manifest <- mnfst.load (js_string_of root +:+ "/.icie");;
  console_log "ICIE.@triggerSubmit.#manifest = [object Object]";;
  ci.submit (Directory.source (dir this)) (task_url manifest)
            (fun authreq => respondAuthreq authreq).

Definition askDescriptionURL : M W string :=
  inputbox (prompt_only "Task description URL: ").

Definition randomName : M W string :=
  adjective <- choice adjectives;;
  animal <- choice animals;;
  ret (js_string_of adjective +:+ "-" +:+ js_string_of animal).

(** The loop [for (; tries>0; --tries)], by the rounds left: a whole
    number, as the one caller passes it. *)
Fixpoint randomProjectName (tries : nat) : M W string :=
  match tries with
  | O => throw (Thrown "failed to find free project name")
  | S tries' =>
      name <- randomName;;
      home <- homedir;;
      taken <- afs.exists_ (home +:+ "/" +:+ name);;
      if negb taken then ret name else randomProjectName tries'
  end.

Definition triggerInit : M W unit :=
  task_url <- askDescriptionURL;;
  project_name <- randomProjectName 5;;
  home <- homedir;;
  let project_dir := home +:+ "/" +:+ project_name in
  afs.mkdir project_dir;;
  ci.init task_url project_dir (fun domain => respondAuthreq domain);;
  let manifest := {| task_url := task_url |} in
  mnfst.save (project_dir +:+ "/.icie") manifest;;
  config <- conf.load;;
  let dir2 := Directory.new project_dir in
  afs.copy (template_path (template config)) (Directory.source dir2);;
  vscode.openFolder project_dir false.

End Methods.

End ICIE.

(** ** The frame decoder

    [Logic.recv] of [native.ts] hands every chunk of the worker's output to
    a [multijson.Parser] and delivers what [read()] returns. *)

Module multijson.

(* the structural bytes of JSON *)
Definition quote : byte := x22.      (* the double quote *)
Definition backslash : byte := x5c.
Definition open_brace : byte := x7b.
Definition close_brace : byte := x7d.
Definition open_bracket : byte := x5b.
Definition close_bracket : byte := x5d.

Definition is_quote (b : byte) : bool := Byte.eqb b quote.
Definition is_backslash (b : byte) : bool := Byte.eqb b backslash.
Definition is_open (b : byte) : bool :=
  Byte.eqb b open_brace || Byte.eqb b open_bracket.
Definition is_close (b : byte) : bool :=
  Byte.eqb b close_brace || Byte.eqb b close_bracket.

(** Where the structural scan stands inside a document. *)
Inductive Mode : Type :=
| Structural   (* between tokens *)
| InString     (* inside a string literal *)
| Escaped      (* inside a string literal, right after a backslash *).

Record Scan : Type := { depth : nat; mode : Mode }.

Definition top : Scan := {| depth := 0; mode := Structural |}.

(** Modelled from the spec: the structural scan of [./multijson], which is
    not among the sources, over one byte of a document: braces and brackets
    count only outside string literals (a brace or bracket inside a quoted
    string is not structural), and a quote ends a literal only when it is
    not escaped. *)
Definition step (st : Scan) (b : byte) : Scan :=
  match mode st with
  | Escaped => {| depth := depth st; mode := InString |}
  | InString =>
      if is_backslash b then {| depth := depth st; mode := Escaped |}
      else if is_quote b then {| depth := depth st; mode := Structural |}
      else st
  | Structural =>
      if is_quote b then {| depth := depth st; mode := InString |}
      else if is_open b then {| depth := S (depth st); mode := Structural |}
      else if is_close b then {| depth := pred (depth st); mode := Structural |}
      else st
  end.

(** Modelled from the spec: the scan of the buffered bytes by [./multijson],
    which is not among the sources.  A value is complete when the scan finds
    a balanced top-level object or array whose closing delimiter has been
    reached, that is, when the depth is back to zero.  [pending] holds the
    bytes of the document under way, last byte first.  Outside a document, a
    byte that opens none (the newline after a message) belongs to no value
    and is dropped. *)
Fixpoint scan (st : Scan) (pending input : list byte)
  : list (list byte) * (Scan * list byte) :=
  match input with
  | [] => ([], (st, pending))
  | b :: rest =>
      match depth st with
      | O =>
          if is_open b then scan {| depth := 1; mode := Structural |} [b] rest
          else scan top [] rest
      | S _ =>
          let st' := step st b in
          match depth st' with
          | O =>
              let '(values, final) := scan top [] rest in
              (rev (b :: pending) :: values, final)
          | S _ => scan st' (b :: pending) rest
          end
      end
  end.

(** The scan, [n] delimiters deep inside a document beyond the first. *)
Definition inside (n : nat) (m : Mode) : Scan := {| depth := S n; mode := m |}.

(** A scan state from which the buffered bytes can be scanned again: what
    [read] leaves in the buffer leads back to where the scan stood. *)
Definition resumable (st : Scan) (pending : list byte) : Prop :=
  scan top [] (rev pending) = ([], (st, pending)).

(** Modelled from the spec: the class [Parser] of the module [./multijson],
    which is not among the sources; its state is the internal buffer of
    raw bytes. *)
Record Parser : Type := { buffer : list byte }.

(** Modelled from the spec: [new multijson.Parser()], of the module that is
    not among the sources; nothing is buffered yet. *)
Definition new : Parser := {| buffer := [] |}.

(** Modelled from the spec: [Parser.write] of [./multijson], which is not
    among the sources: [write(bytes)] appends raw bytes to the internal
    buffer. *)
Definition write (this : Parser) (bytes : list byte) : Parser :=
  {| buffer := buffer this ++ bytes |}.

(** Modelled from the spec: [Parser.read] of [./multijson], which is not
    among the sources: [read()] returns, and removes from the buffer, every
    complete JSON value found so far, in arrival order, leaving any trailing
    partial value buffered for the next [write].  A decoded value is
    represented by the text of its document. *)
Definition read (this : Parser) : list (list byte) * Parser :=
  let '(values, (_, pending)) := scan top [] (buffer this) in
  (values, {| buffer := rev pending |}).

End multijson.

Module native.

(** A received value: the text of one JSON document. *)
Definition Reaction : Type := list byte.

(** What a ['data'] event of the worker's output may carry. *)
Inductive Chunk : Type :=
| ChunkString (s : string)
| ChunkBuffer (bytes : list byte).

(** [class Logic], without the process handle. *)
Record Logic : Type := {
  path : string;
  parser : multijson.Parser;
}.

Definition new (extensionPath : string) : Logic :=
  {| path := extensionPath +:+ "/assets/bin-linux";
     parser := multijson.new |}.

(** The listener that [recv(callback)] registers, run on one chunk; the
    subscriber's state [A] is whatever the callback updates. *)
Definition on_data {A} (callback : Reaction -> A -> A) (chunk : Chunk)
    (st : Logic * A) : Result (Logic * A) :=
  let '(this, a) := st in
  match chunk with
  | ChunkString _ =>
      Err (JsError "icie_stdio.stdout.on [data] returned string instead of Buffer")
  | ChunkBuffer bytes =>
      let written := multijson.write (parser this) bytes in
      let '(reactions, rest) := multijson.read written in
      Ok ({| path := path this; parser := rest |},
          fold_left (fun a reaction => callback reaction a) reactions a)
  end.

(** The chunks of the output stream, in arrival order. *)
Fixpoint on_stream {A} (callback : Reaction -> A -> A) (chunks : list Chunk)
    (st : Logic * A) : Result (Logic * A) :=
  match chunks with
  | [] => Ok st
  | chunk :: later =>
      match on_data callback chunk st with
      | Ok st' => on_stream callback later st'
      | Err e => Err e
      end
  end.

(** A subscriber that keeps every reaction it is called with, in order. *)
Definition keep (reaction : Reaction) (seen : list Reaction) : list Reaction :=
  seen ++ [reaction].

Definition received (extensionPath : string) (chunks : list (list byte))
  : Result (list Reaction) :=
  match on_stream keep (map ChunkBuffer chunks) (new extensionPath, []) with
  | Ok (_, seen) => Ok seen
  | Err e => Err e
  end.

End native.

(** ** JSON documents, as texts *)

Module JsonText.

Import multijson.

(** The inside of a string literal: any bytes, where a quote or a backslash
    only ever follows a backslash. *)
Inductive string_body : list byte -> Prop :=
| sb_end : string_body []
| sb_char b s :
    is_quote b = false -> is_backslash b = false ->
    string_body s -> string_body (b :: s)
| sb_escape b s :
    string_body s -> string_body (backslash :: b :: s).

(** The inside of an object or array: string literals, nested objects and
    arrays with matching delimiters, and any other bytes in between. *)
Inductive balanced : list byte -> Prop :=
| bal_end : balanced []
| bal_plain b s :
    is_quote b = false -> is_open b = false -> is_close b = false ->
    balanced s -> balanced (b :: s)
| bal_string s t :
    string_body s -> balanced t -> balanced (quote :: s ++ quote :: t)
| bal_object s t :
    balanced s -> balanced t ->
    balanced (open_brace :: s ++ close_brace :: t)
| bal_array s t :
    balanced s -> balanced t ->
    balanced (open_bracket :: s ++ close_bracket :: t).

(** A document: one object or one array.  Every valid JSON text of an
    object or array has this shape. *)
Inductive document : list byte -> Prop :=
| doc_object s : balanced s -> document (open_brace :: s ++ [close_brace])
| doc_array s : balanced s -> document (open_bracket :: s ++ [close_bracket]).

(** A byte with no structural meaning anywhere. *)
Definition plain (b : byte) : Prop :=
  is_quote b = false /\ is_backslash b = false
  /\ is_open b = false /\ is_close b = false.

(** JSON whitespace. *)
Definition is_space (b : byte) : bool :=
  Byte.eqb b x20 || Byte.eqb b x09 || Byte.eqb b x0a || Byte.eqb b x0d.

(** The documents on the wire, each followed by the separator. *)
Definition stream (separator : list byte) (docs : list (list byte)) : list byte :=
  concat (map (fun d => d ++ separator) docs).

End JsonText.

(** ** JSON values and their texts

    The messages of the wire protocol are JSON values; [render] writes one
    the compact way, as [JSON.stringify] without an indent does for the
    values covered here: numbers are the integers, and a string is
    well-formed text given by the bytes of its UTF-8 encoding, in which
    form the text is written to the pipe. *)

Module Json.

Import multijson.

#[local] Unset Elimination Schemes.
Inductive value : Type :=
| Null
| Bool (b : bool)
| Number (n : Z)
| String (s : list byte)
| Array (items : list value)
| Object (members : list (list byte * value)).
#[local] Set Elimination Schemes.

Definition comma : byte := x2c.
Definition colon : byte := x3a.

Definition digit (d : N) : byte :=
  nth (N.to_nat d) [x30; x31; x32; x33; x34; x35; x36; x37; x38; x39] x30.

Definition hex_digit (d : N) : byte :=
  nth (N.to_nat d)
      [x30; x31; x32; x33; x34; x35; x36; x37; x38; x39;
       x61; x62; x63; x64; x65; x66] x30.

Fixpoint digits (fuel : nat) (n : N) (acc : list byte) : list byte :=
  match fuel with
  | O => acc
  | S fuel' =>
      let acc' := digit (n mod 10) :: acc in
      if (n / 10 =? 0)%N then acc' else digits fuel' (n / 10) acc'
  end.

Definition render_natural (n : N) : list byte :=
  digits (S (N.to_nat (N.log2 n))) n [].

Definition render_number (n : Z) : list byte :=
  match n with
  | Z0 => [x30]
  | Zpos p => render_natural (Npos p)
  | Zneg p => x2d :: render_natural (Npos p)
  end.

(** The two-character escapes of [JSON.stringify] beside those of the quote
    and of the backslash: backspace, tab, line feed, form feed and carriage
    return are written as a backslash and the letter b, t, n, f or r. *)
Definition short_escape (b : byte) : option byte :=
  match b with
  | x08 => Some x62
  | x09 => Some x74
  | x0a => Some x6e
  | x0c => Some x66
  | x0d => Some x72
  | _ => None
  end.

(** One byte of a string, inside its literal, as [JSON.stringify] quotes
    it: the quote and the backslash are escaped, the five control
    characters above have their short escapes, any other control character
    is written as its code point in four lower-case hexadecimal digits, and
    every other byte stands for itself. *)
Definition escape (b : byte) : list byte :=
  if is_quote b then [backslash; quote]
  else if is_backslash b then [backslash; backslash]
  else match short_escape b with
       | Some letter => [backslash; letter]
       | None =>
           if (Byte.to_N b <? 32)%N then
             [backslash; x75; x30; x30;
              hex_digit (Byte.to_N b / 16); hex_digit (Byte.to_N b mod 16)]
           else [b]
       end.

Definition render_string (s : list byte) : list byte :=
  quote :: flat_map escape s ++ [quote].

Fixpoint join (parts : list (list byte)) : list byte :=
  match parts with
  | [] => []
  | [part] => part
  | part :: later => part ++ comma :: join later
  end.

Fixpoint render (v : value) : list byte :=
  match v with
  | Null => [x6e; x75; x6c; x6c]
  | Bool true => [x74; x72; x75; x65]
  | Bool false => [x66; x61; x6c; x73; x65]
  | Number n => render_number n
  | String s => render_string s
  | Array items =>
      open_bracket :: join (map render items) ++ [close_bracket]
  | Object members =>
      open_brace
      :: join (map (fun member => render_string (fst member) ++ colon :: render (snd member))
                   members)
      ++ [close_brace]
  end.

Definition is_container (v : value) : bool :=
  match v with
  | Array _ | Object _ => true
  | _ => false
  end.

End Json.

(** A sample of worker output: two reactions, each ended by a newline, in
    three chunks that cut through both. *)
Module Wire.

Definition first_value : Json.value :=
  Json.Object [([x61], Json.String [x7d])].

Definition second_value : Json.value :=
  Json.Array [Json.Number 1; Json.String [x22]].

(* an object whose one member, named a, is the string of one closing brace *)
Definition first_doc : list byte :=
  [x7b; x22; x61; x22; x3a; x22; x7d; x22; x7d].

(* an array of the number 1 and the string of one escaped quote *)
Definition second_doc : list byte :=
  [x5b; x31; x2c; x22; x5c; x22; x22; x5d].

Definition newline : list byte := [x0a].

Definition chunks : list (list byte) :=
  [ [x7b; x22; x61; x22; x3a; x22; x7d];
    [x22; x7d; x0a; x5b; x31; x2c; x22; x5c];
    [x22; x22; x5d; x0a] ].

End Wire.

(** ** A simulated world

    A small, executable platform: a file system of modification times, an
    editor with unsaved documents and a script of user answers, a worker
    whose verdicts are fixed in advance.  It instantiates [Platform] for
    concrete runs of the orchestrator. *)

Module Sim.

Record t : Type := {
  files : gmap string Z;          (* path -> modification time *)
  unsaved : list string;          (* documents with unsaved edits *)
  clock : Z;
  answers : list (option string); (* what the user will type, in order *)
  samples : list UnitSample;      (* what Math.random will return, in order *)
  tests_pass : bool;
  auth_domain : option string;    (* the worker asks for credentials *)
  manifests : gmap string Manifest;
  config : Config;
  home : string;
  root : option string;
}.

Definition with_files (f : gmap string Z) (w : t) : t :=
  {| files := f; unsaved := unsaved w; clock := clock w; answers := answers w;
     samples := samples w; tests_pass := tests_pass w;
     auth_domain := auth_domain w; manifests := manifests w;
     config := config w; home := home w; root := root w |}.

Definition with_unsaved (u : list string) (w : t) : t :=
  {| files := files w; unsaved := u; clock := clock w; answers := answers w;
     samples := samples w; tests_pass := tests_pass w;
     auth_domain := auth_domain w; manifests := manifests w;
     config := config w; home := home w; root := root w |}.

Definition with_answers (a : list (option string)) (w : t) : t :=
  {| files := files w; unsaved := unsaved w; clock := clock w; answers := a;
     samples := samples w; tests_pass := tests_pass w;
     auth_domain := auth_domain w; manifests := manifests w;
     config := config w; home := home w; root := root w |}.

Definition with_samples (r : list UnitSample) (w : t) : t :=
  {| files := files w; unsaved := unsaved w; clock := clock w; answers := answers w;
     samples := r; tests_pass := tests_pass w;
     auth_domain := auth_domain w; manifests := manifests w;
     config := config w; home := home w; root := root w |}.

Definition with_manifests (m : gmap string Manifest) (w : t) : t :=
  {| files := files w; unsaved := unsaved w; clock := clock w; answers := answers w;
     samples := samples w; tests_pass := tests_pass w;
     auth_domain := auth_domain w; manifests := m;
     config := config w; home := home w; root := root w |}.

Definition with_root (r : option string) (w : t) : t :=
  {| files := files w; unsaved := unsaved w; clock := clock w; answers := answers w;
     samples := samples w; tests_pass := tests_pass w;
     auth_domain := auth_domain w; manifests := manifests w;
     config := config w; home := home w; root := r |}.

Definition with_tests_pass (b : bool) (w : t) : t :=
  {| files := files w; unsaved := unsaved w; clock := clock w; answers := answers w;
     samples := samples w; tests_pass := b;
     auth_domain := auth_domain w; manifests := manifests w;
     config := config w; home := home w; root := root w |}.

Definition with_auth_domain (d : option string) (w : t) : t :=
  {| files := files w; unsaved := unsaved w; clock := clock w; answers := answers w;
     samples := samples w; tests_pass := tests_pass w;
     auth_domain := d; manifests := manifests w;
     config := config w; home := home w; root := root w |}.

Definition touch (path : string) (w : t) : t :=
  with_files (<[path := clock w]> (files w)) w.

(** A sample that lands on position [k] of an array (counted round the
    array when [k] is past its end). *)
Definition sample (k : nat) : UnitSample :=
  {| scaled := fun n => k mod n;
     scaled_range := fun n (positive : 0 < n) _ =>
       Nat.mod_upper_bound k n (proj2 (Nat.neq_0_lt_0 n) positive) |}.

Definition zero_sample : UnitSample := sample 0.

Definition enoent {A} : Result A := Err (External "ENOENT").

Definition saveAll (w : t) : bool * t :=
  (true, with_unsaved [] (foldr touch w (unsaved w))).

Definition showInputBox (o : InputBoxOptions) (w : t) : option string * t :=
  match answers w with
  | a :: rest => (a, with_answers rest w)
  | [] => (None, w)
  end.

Definition random (w : t) : UnitSample * t :=
  match samples w with
  | u :: rest => (u, with_samples rest w)
  | [] => (zero_sample, w)
  end.

Definition stat (path : string) (w : t) : Result Stats * t :=
  match files w !! path with
  | Some t => (Ok {| mtime := t |}, w)
  | None => (enoent, w)
  end.

Definition exists_ (path : string) (w : t) : Result bool * t :=
  (Ok (bool_decide (is_Some (files w !! path))), w).

Definition copy (from to : string) (w : t) : Result unit * t :=
  match files w !! from with
  | Some _ => (Ok tt, touch to w)
  | None => (enoent, w)
  end.

Definition build (source : string) (w : t) : Result unit * t :=
  match files w !! source with
  | Some _ =>
      (Ok tt,
       touch (js_substr source 0 (Z.of_nat (String.length source) - 4) +:+ ".e") w)
  | None => (enoent, w)
  end.

Definition load_manifest (path : string) (w : t) : Result Manifest * t :=
  match manifests w !! path with
  | Some m => (Ok m, w)
  | None => (Err (External "ManifestMissing"), w)
  end.

#[global] Instance platform : Platform t := {|
  vscode_saveAll := saveAll;
  vscode_showInputBox := showInputBox;
  vscode_openFolder := fun path _ w => (Ok tt, with_root (Some path) w);
  vscode_rootPath := root;
  os_homedir := home;
  Math_random := random;
  afs_stat := stat;
  afs_exists := exists_;
  afs_mkdir := fun path w => (Ok tt, touch path w);
  afs_copy := copy;
  ci_build := build;
  ci_test := fun _ _ w => (Ok (tests_pass w), w);
  ci_init_send := fun _ _ w => (Ok (Build_AuthRequest <$> auth_domain w), w);
  ci_submit_send := fun _ _ w => (Ok (Build_AuthRequest <$> auth_domain w), w);
  ci_auth_reply := fun _ w => (Ok tt, w);
  conf_load := fun w => (Ok (config w), w);
  mnfst_save := fun path m w => (Ok tt, with_manifests (<[path := m]> (manifests w)) w);
  mnfst_load := load_manifest;
|}.

(** A fresh state around a world. *)
Definition boot (w : t) : State t := {| world := w; trace := []; console := [] |}.

(** A project at [/w] whose source was written at time 10. *)
Definition project : t :=
  {| files := {[ "/w/main.cpp" := 10%Z ]};
     unsaved := [];
     clock := 20%Z;
     answers := [];
     samples := [];
     tests_pass := true;
     auth_domain := None;
     manifests := {[ "/w/.icie" := {| task_url := "https://judge.example/task/1" |} ]};
     config := {| template := {| template_path := "/tpl/template.cpp" |} |};
     home := "/home/u";
     root := Some "/w" |}.

(** The same project, with a worker that asks for credentials. *)
Definition guarded : t := with_auth_domain (Some "judge.example") project.

(** A user who types the credentials, and one who dismisses the first box. *)
Definition answering : t := with_answers [Some "alice"; Some "hunter2"] guarded.
Definition dismissing : t := with_answers [None] guarded.

(** The project with a solution that fails a test. *)
Definition failing : t := with_tests_pass false project.

(** The project with an executable newer than the source. *)
Definition built : t :=
  with_files {[ "/w/main.cpp" := 10%Z; "/w/main.e" := 15%Z ]} project.

(** No source and no executable. *)
Definition empty_directory : t := with_files ∅ project.

Definition judge : AuthRequest := {| domain := "judge.example" |}.

(** A machine on which an init is about to run: the template exists, the
    directory of the first name drawn is taken, that of the second is free. *)
Definition fresh_machine : t :=
  with_samples
    [ sample 0; sample 0; sample 4; sample 9 ]
    (with_answers [Some "https://judge.example/task/7"]
       (with_files {[ "/tpl/template.cpp" := 1%Z;
                      "/home/u/playful-capybara" := 2%Z ]}
          (with_root None project))).

Definition icie : ICIE.t := {| ICIE.dir := Directory.new "/w" |}.

End Sim.

(** ** Observing a run *)

(** The events a run of [m] from [s] adds to the trace. *)
Definition new_events {W A} (m : M W A) (s : State W) : list Event :=
  drop (length (trace s)) (trace (snd (m s))).

Definition result_of {W A} (m : M W A) (s : State W) : Result A := fst (m s).

(** The spec's names for the failures the orchestrator raises itself. *)
Inductive ErrorClass : Type :=
| PreconditionFailed
| NoFreeNameFound
| PromptCancelled
| Unclassified.

Definition error_class (e : Exn) : ErrorClass :=
  match e with
  | Thrown s =>
      if decide (s = "Not all tests passed") then PreconditionFailed
      else if decide (s = "failed to find free project name") then NoFreeNameFound
      else Unclassified
  | JsError message =>
      if decide (message = "did not get input on input box") then PromptCancelled
      else Unclassified
  | External _ => Unclassified
  end.

Section Observations.

Context {W : Type} `{Platform W}.
Variable this : ICIE.t.

(** What the freshness check observes, in the order in which it asks: the
    world once the documents have been flushed, then the stat of the
    source, then the stat of the executable. *)
Definition flushed (w : W) : W := snd (vscode_saveAll w).

Definition source_stat (w : W) : Result Stats :=
  fst (afs_stat (Directory.source (ICIE.dir this)) (flushed w)).

Definition executable_stat (w : W) : Result Stats :=
  fst (afs_stat (Directory.executable (ICIE.dir this))
         (snd (afs_stat (Directory.source (ICIE.dir this)) (flushed w)))).

End Observations.

Definition is_submit (e : Event) : bool :=
  match e with
  | EvSubmit _ _ _ => true
  | _ => false
  end.

Definition is_manifest_load (e : Event) : bool :=
  match e with
  | EvManifestLoad _ => true
  | _ => false
  end.

Definition is_prompt (e : Event) : bool :=
  match e with
  | EvShowInputBox _ _ => true
  | _ => false
  end.

Definition is_auth_response (e : Event) : bool :=
  match e with
  | EvAuthResponse _ => true
  | _ => false
  end.

(** The two questions of [respondAuthreq]. *)
Definition username_prompt (authreq : AuthRequest) : InputBoxOptions :=
  prompt_only ("Username at " +:+ domain authreq).

Definition password_prompt (authreq : AuthRequest) (username : string)
  : InputBoxOptions :=
  prompt_only ("Password for " +:+ username +:+ " at " +:+ domain authreq).

(** How the exchange that follows an authentication challenge can go: the
    events it leaves, and the credentials handed to the worker, if any. *)
Inductive auth_exchange (authreq : AuthRequest)
  : list Event -> option AuthResponse -> Prop :=
| username_dismissed :
    auth_exchange authreq
      [EvShowInputBox (username_prompt authreq) None] None
| password_dismissed u :
    auth_exchange authreq
      [EvShowInputBox (username_prompt authreq) (Some u);
       EvShowInputBox (password_prompt authreq u) None] None
| credentials_sent u p :
    auth_exchange authreq
      [EvShowInputBox (username_prompt authreq) (Some u);
       EvShowInputBox (password_prompt authreq u) (Some p);
       EvAuthResponse {| username := u; auth_password := p |}]
      (Some {| username := u; auth_password := p |}).

(** The hundred names [randomName] can draw. *)
Definition candidates : list string :=
  flat_map (fun adjective =>
              map (fun animal => adjective +:+ "-" +:+ animal) ICIE.animals)
           ICIE.adjectives.

(** An existence check on a candidate's path that found the path taken. *)
Definition collision (e : Event) : Prop :=
  exists home name,
    In name candidates /\ e = EvExists (home +:+ "/" +:+ name) (Ok true).

(** The name that two samples of [Math.random] draw: the adjective at the
    index the first sample gives in the list of adjectives, a hyphen, the
    animal at the index the second gives in the list of animals. *)
Definition drawn_name (first second : UnitSample) : string :=
  js_string_of (ICIE.adjectives !! scaled first (length ICIE.adjectives))
  +:+ "-" +:+
  js_string_of (ICIE.animals !! scaled second (length ICIE.animals)).

(** One round of the name search as the platform answered it: the two
    samples that [Math.random] returned, the home directory that
    [os.homedir] returned, and the answer of the existence check. *)
Record Attempt : Type := {
  adjective_sample : UnitSample;
  animal_sample : UnitSample;
  home_read : string;
  answer : Result bool;
}.

Definition attempt_name (a : Attempt) : string :=
  drawn_name (adjective_sample a) (animal_sample a).

(** The path a round checks: the candidate name under the home directory. *)
Definition attempt_path (a : Attempt) : string :=
  home_read a +:+ "/" +:+ attempt_name a.

Definition attempt_check (a : Attempt) : Event :=
  EvExists (attempt_path a) (answer a).

Section Attempts.

Context {W : Type} `{Platform W}.

(** The rounds that follow one another from a world: each draws its two
    samples from [Math.random], reads the home directory, and asks [afs]
    whether the candidate's path under it exists; the next round starts
    from the world that this leaves. *)
Inductive attempts_from : W -> list Attempt -> W -> Prop :=
| no_attempt w : attempts_from w [] w
| one_more_attempt w first w1 second w2 taken w3 later w' :
    Math_random w = (first, w1) ->
    Math_random w1 = (second, w2) ->
    afs_exists (os_homedir w2 +:+ "/" +:+ drawn_name first second) w2 = (taken, w3) ->
    attempts_from w3 later w' ->
    attempts_from w
      ({| adjective_sample := first; animal_sample := second;
          home_read := os_homedir w2; answer := taken |} :: later)
      w'.

End Attempts.

(** ** Further observations *)

Section TestObservations.

Context {W : Type} `{Platform W}.
Variable this : ICIE.t.

Definition world_after {A} (m : M W A) (s : State W) : W := world (snd (m s)).

(** What the worker answers to the build that follows a freshness check
    from [s]: the check runs, the documents are flushed once more, the
    build command is sent. *)
Definition build_result (s : State W) : Result unit :=
  fst (ci_build (Directory.source (ICIE.dir this))
         (flushed (world_after (ICIE.requiresCompilation this) s))).

End TestObservations.

Definition is_test (e : Event) : bool :=
  match e with
  | EvTest _ _ _ => true
  | _ => false
  end.

Definition is_build (e : Event) : bool :=
  match e with
  | EvBuild _ => true
  | _ => false
  end.

Definition is_mkdir (e : Event) : bool :=
  match e with
  | EvMkdir _ => true
  | _ => false
  end.

(** The calls a test may make: flushes, stats, a build, the test. *)
Definition test_step (e : Event) : bool :=
  match e with
  | EvSaveAll | EvStat _ _ | EvBuild _ | EvTest _ _ _ => true
  | _ => false
  end.

(** ** The outgoing half of the bridge *)

Module Bridge.

(** [type Impulse] of [native.ts]. *)
Inductive Impulse : Type :=
| ImpulseQuickPick (response : option string)
| ImpulseInputBox (response : option string)
| ImpulseTriggerBuild
| ImpulseWorkspaceInfo (root_path : option string)
| ImpulseSavedAll
| ImpulseTriggerTest
| ImpulseTriggerInit
| ImpulseTriggerSubmit
| ImpulseTriggerManualSubmit
| ImpulseTriggerTemplateInstantiate.

Definition tag (impulse : Impulse) : string :=
  match impulse with
  | ImpulseQuickPick _ => "quick_pick"
  | ImpulseInputBox _ => "input_box"
  | ImpulseTriggerBuild => "trigger_build"
  | ImpulseWorkspaceInfo _ => "workspace_info"
  | ImpulseSavedAll => "saved_all"
  | ImpulseTriggerTest => "trigger_test"
  | ImpulseTriggerInit => "trigger_init"
  | ImpulseTriggerSubmit => "trigger_submit"
  | ImpulseTriggerManualSubmit => "trigger_manual_submit"
  | ImpulseTriggerTemplateInstantiate => "trigger_template_instantiate"
  end.

(** The worker process as [send] sees it: what has been written to its
    standard input, and the console. *)
Record Kid : Type := {
  stdin : list byte;
  logged : list (list byte);
}.

(** [spawn(this.path, [], {})]: nothing written yet. *)
Definition spawn : Kid := {| stdin := []; logged := [] |}.

Definition line_feed : byte := x0a.

Section Send.

(** [JSON.stringify], on impulses. *)
Variable stringify : Impulse -> list byte.

Definition send (impulse : Impulse) (kid : Kid) : Kid :=
  {| logged := logged kid ++ [[x20; x20; x20; x7e; x3e; x20] ++ stringify impulse];
     stdin := stdin kid ++ stringify impulse ++ [line_feed] |}.

(** Several sends, in the order of the calls. *)
Definition send_all (impulses : list Impulse) (kid : Kid) : Kid :=
  fold_left (fun k impulse => send impulse k) impulses kid.

End Send.

(** The complete lines of a byte stream, as the reader at the other end of
    the pipe takes them; [current] holds the line under way, last byte
    first. *)
Fixpoint lines (current input : list byte) : list (list byte) :=
  match input with
  | [] => []
  | b :: rest =>
      if Byte.eqb b line_feed then rev current :: lines [] rest
      else lines (b :: current) rest
  end.

Definition bytes_of (s : string) : list byte := String.list_byte_of_string s.

Definition optional (x : option string) : Json.value :=
  match x with
  | Some s => Json.String (bytes_of s)
  | None => Json.Null
  end.

(** An impulse as a JSON value, its members in the order of the interface
    declarations: the tag, then the response or the root path where the
    impulse has one, [null] standing for an absent one. *)
Definition to_json (impulse : Impulse) : Json.value :=
  Json.Object
    ((bytes_of "tag", Json.String (bytes_of (tag impulse)))
     :: match impulse with
        | ImpulseQuickPick response | ImpulseInputBox response =>
            [(bytes_of "response", optional response)]
        | ImpulseWorkspaceInfo root_path =>
            [(bytes_of "root_path", optional root_path)]
        | _ => []
        end).

End Bridge.

(** The simulated world with a worker whose compiler rejects every build. *)
Definition broken_compiler : Platform Sim.t := {|
  vscode_saveAll := Sim.saveAll;
  vscode_showInputBox := Sim.showInputBox;
  vscode_openFolder := fun path _ w => (Ok tt, Sim.with_root (Some path) w);
  vscode_rootPath := Sim.root;
  os_homedir := Sim.home;
  Math_random := Sim.random;
  afs_stat := Sim.stat;
  afs_exists := Sim.exists_;
  afs_mkdir := fun path w => (Ok tt, Sim.touch path w);
  afs_copy := Sim.copy;
  ci_build := fun _ w => (Err (External "compilation failed"), w);
  ci_test := fun _ _ w => (Ok (Sim.tests_pass w), w);
  ci_init_send := fun _ _ w => (Ok (Build_AuthRequest <$> Sim.auth_domain w), w);
  ci_submit_send := fun _ _ w => (Ok (Build_AuthRequest <$> Sim.auth_domain w), w);
  ci_auth_reply := fun _ w => (Ok tt, w);
  conf_load := fun w => (Ok (Sim.config w), w);
  mnfst_save := fun path m w =>
    (Ok tt, Sim.with_manifests (<[path := m]> (Sim.manifests w)) w);
  mnfst_load := Sim.load_manifest;
|}.

(** The project after an edit of the source that made it newer than the
    executable, and after a second edit. *)
Definition edited_once : Sim.t :=
  Sim.with_files {[ "/w/main.cpp" := 16%Z; "/w/main.e" := 15%Z ]} Sim.project.

Definition edited_twice : Sim.t :=
  Sim.with_files {[ "/w/main.cpp" := 18%Z; "/w/main.e" := 15%Z ]} Sim.project.

(** Impulses to send: a build trigger, and an answer of two lines. *)
Definition sample_impulses : list Bridge.Impulse :=
  [Bridge.ImpulseTriggerBuild;
   Bridge.ImpulseInputBox (Some ("a" +:+ String (Ascii.ascii_of_nat 10) "b"))].

(** The project once the editor has closed its folder. *)
Definition folder_closed : Sim.t := Sim.with_root None Sim.project.

(** * Properties *)

(** ** Strings *)

Lemma append_cons (x : Ascii.ascii) (a b : string) :
  String x a +:+ b = String x (a +:+ b).
Proof. reflexivity. Qed.

Lemma append_assoc (a b c : string) : (a +:+ b) +:+ c = a +:+ (b +:+ c).
Proof.
  induction a as [|x a IH]; [reflexivity|].
  rewrite !append_cons. now f_equal.
Qed.

Lemma length_append (a b : string) :
  String.length (a +:+ b) = String.length a + String.length b.
Proof.
  induction a as [|x a IH]; [reflexivity|].
  rewrite append_cons. simpl. now f_equal.
Qed.

Lemma substring_prefix (a b : string) :
  String.substring 0 (String.length a) (a +:+ b) = a.
Proof.
  induction a as [|x a IH].
  - destruct b; reflexivity.
  - rewrite append_cons. simpl. now f_equal.
Qed.

(** Cutting [n] characters off the end of [a +:+ b], where [b] has [n]
    characters, leaves [a]. *)
Lemma js_substr_drop_suffix (a b : string) :
  js_substr (a +:+ b) 0 (Z.of_nat (String.length (a +:+ b)) - Z.of_nat (String.length b)) = a.
Proof.
  unfold js_substr. rewrite length_append.
  change (0 <? 0)%Z with false. cbv iota.
  set (la := String.length a). set (lb := String.length b).
  replace (Z.to_nat (Z.min 0 (Z.of_nat (la + lb)))) with 0 by lia.
  replace (Z.to_nat (Z.min _ _)) with la by lia.
  apply substring_prefix.
Qed.

(** ** Directory *)

(** C7. The three paths of a [Directory] are functions of its base path
    alone: the source is [base/main.cpp]; the executable is the source with
    its last four characters (the extension [.cpp]) replaced by [.e], that is
    [base/main.e]; the tests directory is [base/tests]. *)
Theorem Directory_paths (base : string) :
  let d := Directory.new base in
  Directory.source d = base +:+ "/main.cpp"
  /\ (exists stem ext,
        String.length ext = 4
        /\ Directory.source d = stem +:+ ext
        /\ Directory.executable d = stem +:+ ".e")
  /\ Directory.executable d = base +:+ "/main.e"
  /\ Directory.testsDirectory d = base +:+ "/tests"
  /\ (forall d' : Directory.t,
        Directory.base d' = base ->
        Directory.source d' = Directory.source d
        /\ Directory.executable d' = Directory.executable d
        /\ Directory.testsDirectory d' = Directory.testsDirectory d).
Proof.
  assert (Hexe : forall b, Directory.executable (Directory.new b) = b +:+ "/main.e").
  { intros b. unfold Directory.executable, Directory.source. simpl.
    change (b +:+ "/main.cpp") with (b +:+ ("/main" +:+ ".cpp")).
    rewrite <- append_assoc.
    pose proof (js_substr_drop_suffix (b +:+ "/main") ".cpp") as E.
    change (Z.of_nat (String.length ".cpp")) with 4%Z in E.
    rewrite E. apply append_assoc. }
  simpl. repeat split.
  - exists (base +:+ "/main"), ".cpp". repeat split.
    + unfold Directory.source. simpl. now rewrite append_assoc.
    + rewrite Hexe. now rewrite append_assoc.
  - apply Hexe.
  - destruct d' as [b']. simpl in H. now subst.
  - destruct d' as [b']. simpl in H. now subst.
  - destruct d' as [b']. simpl in H. now subst.
Qed.

Lemma Directory_paths_witness :
  Directory.source {| Directory.base := "/w" |} = "/w/main.cpp"
  /\ Directory.executable {| Directory.base := "/w" |} = "/w/main.e"
  /\ Directory.testsDirectory {| Directory.base := "/w" |} = "/w/tests".
Proof.
  destruct (Directory_paths "/w") as (_ & _ & _ & _ & Hsame).
  destruct (Hsame {| Directory.base := "/w" |} eq_refl) as (-> & -> & ->).
  repeat split.
Defined.

(** ** Running the orchestrator *)

Lemma drop_own_length {A} (l k : list A) : drop (length l) (l ++ k) = k.
Proof. induction l; simpl; auto. Qed.

Ltac unfold_orchestrator :=
  unfold new_events, result_of,
    ICIE.triggerSubmit, ICIE.assureTested, ICIE.triggerTest,
    ICIE.assureCompiled, ICIE.requiresCompilation, ICIE.triggerBuild,
    ICIE.assureAllSaved, ICIE.respondAuthreq, ICIE.askDescriptionURL,
    ci.build, ci.test, ci.init, ci.submit, inputbox,
    afs.stat, afs.exists_, afs.mkdir, afs.copy, conf.load, mnfst.save,
    mnfst.load, vscode.workspace_saveAll, vscode.window_showInputBox,
    vscode.openFolder, vscode.workspace_rootPath, homedir,
    bind, try_catch, call, peek, console_log, ret, throw.

(** Split on the next collaborator answer or branch of the program. *)
Ltac split_innermost x :=
  lazymatch x with
  | context [match ?y with _ => _ end] => split_innermost y
  | _ => destruct x eqn:?
  end.

Ltac next_case :=
  match goal with
  | |- context [match ?x with _ => _ end] => split_innermost x
  end.

Ltac tidy_trace :=
  cbn [fst snd world trace console];
  repeat rewrite <- app_assoc;
  cbn [app];
  try rewrite drop_own_length.

Ltac run_orchestrator :=
  unfold_orchestrator; cbn [fst snd world trace console];
  repeat (next_case; cbn [fst snd world trace console]);
  tidy_trace.

(** Decide a membership hypothesis over a list of events given in full. *)
Ltac close_membership :=
  match goal with
  | Hin : In _ _ |- _ =>
      cbn [In] in Hin; repeat destruct Hin as [Hin | Hin];
      simplify_eq; try contradiction
  end.

Section Freshness.

Context {W : Type} `{Platform W}.
Variable this : ICIE.t.

Let src := Directory.source (ICIE.dir this).
Let exe := Directory.executable (ICIE.dir this).

Lemma requiresCompilation_result (s : State W) :
  result_of (ICIE.requiresCompilation this) s =
    match source_stat this (world s) with
    | Err e => Err e
    | Ok statsrc =>
        match executable_stat this (world s) with
        | Err _ => Ok true
        | Ok statexe => Ok (negb (mtime statsrc <=? mtime statexe)%Z)
        end
    end.
Proof.
  unfold source_stat, executable_stat, flushed.
  run_orchestrator; reflexivity.
Qed.

Lemma requiresCompilation_events (s : State W) :
  new_events (ICIE.requiresCompilation this) s =
    EvSaveAll ::
    EvStat src (source_stat this (world s)) ::
    match source_stat this (world s) with
    | Err _ => []
    | Ok _ => [EvStat exe (executable_stat this (world s))]
    end.
Proof.
  unfold source_stat, executable_stat, flushed, src, exe.
  run_orchestrator; reflexivity.
Qed.

(** C1 (amended). Once the stat of the source has succeeded, the
    freshness check returns true whenever the executable is absent (its
    stat fails) or the source's modification time is strictly greater than
    the executable's, and returns false whenever the executable exists and
    its modification time is greater than or equal to the source's.  When
    the stat of the source fails, the check is rejected with that failure,
    whether or not the executable exists. *)
Theorem requiresCompilation_policy (s : State W) :
  (forall statsrc, source_stat this (world s) = Ok statsrc ->
     (forall e, executable_stat this (world s) = Err e ->
        result_of (ICIE.requiresCompilation this) s = Ok true)
     /\ (forall statexe, executable_stat this (world s) = Ok statexe ->
           (mtime statsrc > mtime statexe)%Z ->
           result_of (ICIE.requiresCompilation this) s = Ok true)
     /\ (forall statexe, executable_stat this (world s) = Ok statexe ->
           (mtime statexe >= mtime statsrc)%Z ->
           result_of (ICIE.requiresCompilation this) s = Ok false))
  /\ (forall e, source_stat this (world s) = Err e ->
        result_of (ICIE.requiresCompilation this) s = Err e).
Proof.
  rewrite requiresCompilation_result. split.
  - intros statsrc ->. repeat split.
    + now intros e ->.
    + intros statexe -> Hlt.
      destruct (Z.leb_spec (mtime statsrc) (mtime statexe)); [lia | reflexivity].
    + intros statexe -> Hge.
      destruct (Z.leb_spec (mtime statsrc) (mtime statexe)); [reflexivity | lia].
  - now intros e ->.
Qed.

(** C10. Every freshness check, and with it every test and every submit,
    starts by flushing the unsaved documents: the first event of the run
    is the save-all, so no modification time is read before it.  The
    freshness check itself does nothing else but stat the source and then
    the executable; and when it answers that no build is needed,
    [assureCompiled] has flushed all the same and built nothing. *)
Theorem flush_precedes_every_stat (s : State W) :
  (exists stats,
      new_events (ICIE.requiresCompilation this) s = EvSaveAll :: stats
      /\ (stats = [EvStat src (source_stat this (world s))]
          \/ stats = [EvStat src (source_stat this (world s));
                      EvStat exe (executable_stat this (world s))]))
  /\ (exists rest, new_events (ICIE.triggerTest this) s = EvSaveAll :: rest)
  /\ (exists rest, new_events (ICIE.triggerSubmit this) s = EvSaveAll :: rest)
  /\ (result_of (ICIE.requiresCompilation this) s = Ok false ->
      new_events (ICIE.assureCompiled this) s =
        [EvSaveAll; EvStat src (source_stat this (world s));
         EvStat exe (executable_stat this (world s))]).
Proof.
  split; [|split; [|split]].
  - rewrite requiresCompilation_events. eexists. split; [reflexivity|].
    destruct (source_stat this (world s)); auto.
  - run_orchestrator; eexists; reflexivity.
  - run_orchestrator; eexists; reflexivity.
  - unfold source_stat, executable_stat, flushed, src, exe.
    run_orchestrator; intros; simplify_eq; reflexivity.
Qed.

End Freshness.

(** C1, as stated, fails where the source file is missing: with neither a
    source nor an executable on disk the executable is absent, yet the check
    does not return true, it is rejected by the stat of the source. *)
Lemma requiresCompilation_missing_source :
  Sim.files (flushed Sim.empty_directory)
    !! Directory.executable (ICIE.dir Sim.icie) = None
  /\ result_of (ICIE.requiresCompilation Sim.icie) (Sim.boot Sim.empty_directory)
     = Err (External "ENOENT")
  /\ result_of (ICIE.requiresCompilation Sim.icie) (Sim.boot Sim.empty_directory)
     <> Ok true.
Proof.
  split; [reflexivity | split; [vm_compute; reflexivity|]].
  vm_compute. discriminate.
Qed.

Lemma requiresCompilation_policy_witness :
  source_stat Sim.icie Sim.project = Ok {| mtime := 10 |}
  /\ executable_stat Sim.icie Sim.project = Sim.enoent
  /\ result_of (ICIE.requiresCompilation Sim.icie) (Sim.boot Sim.project) = Ok true.
Proof.
  assert (Hs : source_stat Sim.icie Sim.project = Ok {| mtime := 10 |})
    by (vm_compute; reflexivity).
  assert (He : executable_stat Sim.icie Sim.project = Sim.enoent)
    by (vm_compute; reflexivity).
  split; [exact Hs | split; [exact He|]].
  exact (proj1 (proj1 (requiresCompilation_policy Sim.icie (Sim.boot Sim.project))
                  {| mtime := 10 |} Hs) _ He).
Defined.

(** ** Submit and the prompts *)

Section Submit.

Context {W : Type} `{Platform W}.
Variable this : ICIE.t.

(** C2. A submit whose test step reported failure (the worker answered the
    test call with [false]) is rejected with the string "Not all tests
    passed", the orchestrator's precondition failure; no submit command is
    sent to the worker and the manifest is not loaded. *)
Theorem submit_hard_stop (s : State W) (executable testdir : string) :
  In (EvTest executable testdir (Ok false)) (new_events (ICIE.triggerSubmit this) s) ->
  result_of (ICIE.triggerSubmit this) s = Err (Thrown "Not all tests passed")
  /\ error_class (Thrown "Not all tests passed") = PreconditionFailed
  /\ Forall (fun e => is_submit e = false /\ is_manifest_load e = false)
            (new_events (ICIE.triggerSubmit this) s).
Proof.
  run_orchestrator; intros Hin; close_membership;
    try (cbn in *; discriminate);
    (split; [reflexivity | split; [reflexivity|]]);
    repeat constructor.
Qed.

(** C9. A dismissed input box makes [inputbox] fail with the error "did not
    get input on input box", the prompt-cancelled failure, rather than
    return a string; whatever the user did enter, the empty string
    included, is returned as it is.  The step around the prompt aborts:
    [respondAuthreq] neither asks for a password after a dismissed username
    prompt nor returns credentials after a dismissed password prompt, and
    [triggerInit] does nothing after a dismissed URL prompt.  (The
    orchestrator has no other prompt than [inputbox].) *)
Theorem inputbox_cancellation (options : InputBoxOptions) (s : State W) :
  (fst (vscode_showInputBox options (world s)) = None ->
     result_of (inputbox options) s = Err (JsError "did not get input on input box"))
  /\ error_class (JsError "did not get input on input box") = PromptCancelled
  /\ (forall answer,
        fst (vscode_showInputBox options (world s)) = Some answer ->
        result_of (inputbox options) s = Ok answer)
  /\ (fst (vscode_showInputBox options (world s)) = Some "" ->
        result_of (inputbox options) s = Ok "")
  /\ (forall authreq,
        fst (vscode_showInputBox (username_prompt authreq) (world s)) = None ->
        result_of (ICIE.respondAuthreq authreq) s
          = Err (JsError "did not get input on input box")
        /\ new_events (ICIE.respondAuthreq authreq) s
          = [EvShowInputBox (username_prompt authreq) None])
  /\ (forall authreq u,
        In (EvShowInputBox (password_prompt authreq u) None)
           (new_events (ICIE.respondAuthreq authreq) s) ->
        result_of (ICIE.respondAuthreq authreq) s
          = Err (JsError "did not get input on input box"))
  /\ (fst (vscode_showInputBox (prompt_only "Task description URL: ") (world s)) = None ->
        result_of ICIE.triggerInit s
          = Err (JsError "did not get input on input box")
        /\ new_events ICIE.triggerInit s
          = [EvShowInputBox (prompt_only "Task description URL: ") None]).
Proof.
  split; [|split; [|split; [|split; [|split; [|split]]]]].
  - run_orchestrator; cbn; intros; simplify_eq; reflexivity.
  - reflexivity.
  - run_orchestrator; cbn; intros; simplify_eq; reflexivity.
  - run_orchestrator; cbn; intros; simplify_eq; reflexivity.
  - intros authreq. unfold username_prompt.
    run_orchestrator; cbn; intros; simplify_eq; split; reflexivity.
  - intros authreq u. unfold username_prompt, password_prompt.
    run_orchestrator; intros Hin; close_membership; reflexivity.
  - unfold ICIE.triggerInit.
    run_orchestrator; cbn; intros; simplify_eq; split; reflexivity.
Qed.

(** C8 (amended). Both credentials are gathered through the one text prompt
    of the orchestrator, [inputbox] with nothing but the question set: every
    input box that [respondAuthreq] shows, the one for the password included,
    leaves the [password] option unset and so is not masked. *)
Theorem respondAuthreq_prompts_unmasked (authreq : AuthRequest) (s : State W) :
  Forall (fun e =>
            exists question answer,
              e = EvShowInputBox (prompt_only question) answer
              /\ password (prompt_only question) = None
              /\ masked (prompt_only question) = false)
         (new_events (ICIE.respondAuthreq authreq) s).
Proof.
  run_orchestrator; repeat constructor; eexists _, _; repeat split.
Qed.

End Submit.

(** ** Project names *)

Section Names.

Context {W : Type} `{Platform W}.

Lemma choice_run {A} (xs : list A) (s : State W) :
  xs <> [] ->
  (N.of_nat (length xs) < 2 ^ 32)%N ->
  exists x w,
    In x xs
    /\ choice xs s = (Ok (Some x), {| world := w; trace := trace s; console := console s |}).
Proof.
  intros Hxs Hsmall. unfold choice, random, bind, ret.
  destruct (Math_random (world s)) as [u w].
  assert (Hlt : scaled u (length xs) < length xs).
  { apply scaled_range; [destruct xs; [congruence | simpl; lia] | exact Hsmall]. }
  apply lookup_lt_is_Some_2 in Hlt. destruct Hlt as [x Hx].
  exists x, w. split.
  - apply list_elem_of_In. eapply list_elem_of_lookup_2. exact Hx.
  - cbn. now rewrite Hx.
Qed.

Lemma randomName_run (s : State W) :
  exists name w,
    In name candidates
    /\ ICIE.randomName s = (Ok name, {| world := w; trace := trace s; console := console s |}).
Proof.
  unfold ICIE.randomName, bind, ret.
  destruct (choice_run ICIE.adjectives s) as (adjective & w1 & Hadj & ->);
    [discriminate | reflexivity |].
  destruct (choice_run ICIE.animals
              {| world := w1; trace := trace s; console := console s |})
    as (animal & w2 & Hani & ->); [discriminate | reflexivity |].
  exists (adjective +:+ "-" +:+ animal), w2. split; [|reflexivity].
  unfold candidates. apply in_flat_map. exists adjective. split; [assumption|].
  apply in_map_iff. exists animal. split; [reflexivity | assumption].
Qed.

(** Every run of the name search, for any budget: some collisions, then
    either the budget is spent, or a free name is found and returned at
    once, or the existence check itself fails. *)
Lemma randomProjectName_run (tries : nat) (s : State W) :
  exists collisions s',
    Forall collision collisions
    /\ console s' = console s
    /\ ((length collisions = tries
         /\ ICIE.randomProjectName tries s
            = (Err (Thrown "failed to find free project name"), s')
         /\ trace s' = trace s ++ collisions)
        \/ (length collisions < tries
            /\ exists home name,
                 In name candidates
                 /\ ICIE.randomProjectName tries s = (Ok name, s')
                 /\ trace s' = trace s ++ collisions
                               ++ [EvExists (home +:+ "/" +:+ name) (Ok false)])
        \/ (length collisions < tries
            /\ exists home name e,
                 In name candidates
                 /\ ICIE.randomProjectName tries s = (Err e, s')
                 /\ trace s' = trace s ++ collisions
                               ++ [EvExists (home +:+ "/" +:+ name) (Err e)])).
Proof.
  revert s. induction tries as [|tries IH]; intros s.
  - exists [], s. split; [constructor | split; [reflexivity|]].
    left. cbn. rewrite app_nil_r. auto.
  - destruct (randomName_run s) as (name & w1 & Hname & Hdraw).
    set (home := os_homedir w1).
    remember (ICIE.randomProjectName (S tries) s) as run eqn:Hstep.
    cbn [ICIE.randomProjectName] in Hstep.
    unfold bind at 1 in Hstep. rewrite Hdraw in Hstep.
    unfold homedir, afs.exists_, bind, peek, call, ret in Hstep.
    cbn [world trace console] in Hstep. fold home in Hstep.
    destruct (afs_exists (home +:+ "/" +:+ name) w1) as [[[|]|e] w2] eqn:Hex;
      cbn [negb] in Hstep.
    + (* taken: draw again *)
      match type of Hstep with
      | _ = ICIE.randomProjectName tries ?s1 =>
          destruct (IH s1) as (cs & s' & Hcs & Hcon & Hrun)
      end.
      exists (EvExists (home +:+ "/" +:+ name) (Ok true) :: cs), s'.
      split; [constructor; [exists home, name; auto | assumption]|].
      split; [exact Hcon|].
      cbn [trace length] in *. rewrite Hstep.
      destruct Hrun as [(Hlen & -> & Htr) | [(Hlen & h & n & Hn & -> & Htr)
                                            | (Hlen & h & n & e & Hn & -> & Htr)]];
        rewrite Htr, <- app_assoc.
      * left. split; [lia | split; reflexivity].
      * right; left. split; [lia|]. exists h, n.
        split; [assumption | split; reflexivity].
      * right; right. split; [lia|]. exists h, n, e.
        split; [assumption | split; reflexivity].
    + (* free: returned at once *)
      subst run.
      exists [], {| world := w2;
                    trace := trace s ++ [EvExists (home +:+ "/" +:+ name) (Ok false)];
                    console := console s |}.
      split; [constructor | split; [reflexivity|]].
      right; left. split; [cbn; lia|]. exists home, name.
      split; [assumption | split; reflexivity].
    + subst run.
      exists [], {| world := w2;
                    trace := trace s ++ [EvExists (home +:+ "/" +:+ name) (Err e)];
                    console := console s |}.
      split; [constructor | split; [reflexivity|]].
      right; right. split; [cbn; lia|]. exists home, name, e.
      split; [assumption | split; reflexivity].
Qed.

(** A drawn name is one of the hundred candidates. *)
Lemma drawn_name_candidate (first second : UnitSample) :
  In (drawn_name first second) candidates.
Proof.
  unfold drawn_name.
  assert (Ha : scaled first (length ICIE.adjectives) < length ICIE.adjectives)
    by (apply scaled_range; [cbn; lia | reflexivity]).
  assert (Hb : scaled second (length ICIE.animals) < length ICIE.animals)
    by (apply scaled_range; [cbn; lia | reflexivity]).
  apply lookup_lt_is_Some_2 in Ha. destruct Ha as [adjective Ha].
  apply lookup_lt_is_Some_2 in Hb. destruct Hb as [animal Hb].
  rewrite Ha, Hb. cbn [js_string_of].
  unfold candidates. apply in_flat_map. exists adjective. split.
  - apply list_elem_of_In. eapply list_elem_of_lookup_2. exact Ha.
  - apply in_map_iff. exists animal. split; [reflexivity|].
    apply list_elem_of_In. eapply list_elem_of_lookup_2. exact Hb.
Qed.

(** The name [randomName] returns is the one its two samples draw. *)
Lemma randomName_draws (s : State W) (first second : UnitSample) (w1 w2 : W) :
  Math_random (world s) = (first, w1) ->
  Math_random w1 = (second, w2) ->
  ICIE.randomName s
  = (Ok (drawn_name first second),
     {| world := w2; trace := trace s; console := console s |}).
Proof.
  intros H1 H2.
  unfold ICIE.randomName, choice, random, bind, ret.
  rewrite H1. cbn [world trace console]. rewrite H2. reflexivity.
Qed.

(** The rounds of a name search of any budget, round by round: how each
    candidate is drawn and where it is looked for, and how the search ends. *)
Lemma randomProjectName_attempts (tries : nat) (s : State W) :
  exists attempts,
    attempts_from (world s) attempts (world (snd (ICIE.randomProjectName tries s)))
    /\ trace (snd (ICIE.randomProjectName tries s))
       = trace s ++ map attempt_check attempts
    /\ ((length attempts = tries
         /\ Forall (fun a => answer a = Ok true) attempts
         /\ fst (ICIE.randomProjectName tries s)
            = Err (Thrown "failed to find free project name"))
        \/ (exists earlier last,
              attempts = earlier ++ [last]
              /\ length earlier < tries
              /\ Forall (fun a => answer a = Ok true) earlier
              /\ answer last = Ok false
              /\ fst (ICIE.randomProjectName tries s) = Ok (attempt_name last))
        \/ (exists earlier last e,
              attempts = earlier ++ [last]
              /\ length earlier < tries
              /\ Forall (fun a => answer a = Ok true) earlier
              /\ answer last = Err e
              /\ fst (ICIE.randomProjectName tries s) = Err e)).
Proof.
  revert s. induction tries as [|tries IH]; intros s.
  - exists []. cbn. rewrite app_nil_r.
    split; [constructor | split; [reflexivity|]]. left. auto.
  - destruct (Math_random (world s)) as [first w1] eqn:H1.
    destruct (Math_random w1) as [second w2] eqn:H2.
    pose proof (randomName_draws s first second w1 w2 H1 H2) as Hdraw.
    set (name := drawn_name first second) in *.
    set (home := os_homedir w2).
    remember (ICIE.randomProjectName (S tries) s) as run eqn:Hstep.
    cbn [ICIE.randomProjectName] in Hstep.
    unfold bind at 1 in Hstep. rewrite Hdraw in Hstep.
    unfold homedir, afs.exists_, bind, peek, call, ret in Hstep.
    cbn [world trace console] in Hstep. fold home in Hstep.
    destruct (afs_exists (home +:+ "/" +:+ name) w2) as [taken w3] eqn:Hex.
    set (this_round := {| adjective_sample := first; animal_sample := second;
                          home_read := home; answer := taken |}).
    assert (Hround : forall later w',
               attempts_from w3 later w' ->
               attempts_from (world s) (this_round :: later) w').
    { intros later w' Hlater.
      exact (one_more_attempt (world s) first w1 second w2 taken w3 later w'
               H1 H2 Hex Hlater). }
    destruct taken as [[|]|e]; cbn [negb] in Hstep.
    + (* taken: draw again *)
      match type of Hstep with
      | _ = ICIE.randomProjectName tries ?s1 =>
          destruct (IH s1) as (later & Hfrom & Htr & Hend)
      end.
      rewrite <- Hstep in Hfrom, Htr, Hend.
      cbn [world trace] in Hfrom, Htr.
      exists (this_round :: later).
      split; [now apply Hround|].
      split; [rewrite Htr, <- app_assoc; reflexivity|].
      destruct Hend as [(Hlen & Hall & Hres)
                       | [(earlier & last & -> & Hlen & Hall & Hlast & Hres)
                         | (earlier & last & e & -> & Hlen & Hall & Hlast & Hres)]].
      * left. split; [cbn; lia | split; [constructor; [reflexivity | exact Hall] | exact Hres]].
      * right; left. exists (this_round :: earlier), last.
        split; [reflexivity | split; [cbn; lia|]].
        split; [constructor; [reflexivity | exact Hall] | auto].
      * right; right. exists (this_round :: earlier), last, e.
        split; [reflexivity | split; [cbn; lia|]].
        split; [constructor; [reflexivity | exact Hall] | auto].
    + (* free: returned at once *)
      subst run. exists [this_round]. cbn [fst snd world trace map].
      split; [apply Hround; constructor | split; [reflexivity|]].
      right; left. exists [], this_round.
      split; [reflexivity | split; [cbn; lia | split; [constructor | auto]]].
    + subst run. exists [this_round]. cbn [fst snd world trace map].
      split; [apply Hround; constructor | split; [reflexivity|]].
      right; right. exists [], this_round, e.
      split; [reflexivity | split; [cbn; lia | split; [constructor | auto]]].
Qed.

(** C5. A candidate name is one adjective and one animal, each drawn from a
    fixed list of ten by a sample of [Math.random] scaled to the list, and
    joined by a hyphen.  [randomProjectName(5)] goes by rounds: each draws a
    candidate and asks whether the path of that name under the home
    directory, as [os.homedir] gives it, exists, and these checks are all
    that it calls.  After five collisions in a row it fails with "failed to
    find free project name", the no-free-name failure; before that, the
    first candidate whose path does not exist is returned at once, after at
    most four collisions.  (The only other outcome is a failure of the
    existence check itself.) *)
Theorem randomProjectName_five (s : State W) :
  length ICIE.adjectives = 10
  /\ length ICIE.animals = 10
  /\ (forall name,
        In name candidates <->
        exists adjective animal,
          In adjective ICIE.adjectives /\ In animal ICIE.animals
          /\ name = adjective +:+ "-" +:+ animal)
  /\ error_class (Thrown "failed to find free project name") = NoFreeNameFound
  /\ exists attempts,
       attempts_from (world s) attempts
                     (world (snd (ICIE.randomProjectName 5 s)))
       /\ new_events (ICIE.randomProjectName 5) s = map attempt_check attempts
       /\ Forall (fun a => In (attempt_name a) candidates) attempts
       /\ ((length attempts = 5
            /\ Forall (fun a => answer a = Ok true) attempts
            /\ result_of (ICIE.randomProjectName 5) s
               = Err (Thrown "failed to find free project name"))
           \/ (exists earlier last,
                 attempts = earlier ++ [last]
                 /\ length earlier < 5
                 /\ Forall (fun a => answer a = Ok true) earlier
                 /\ answer last = Ok false
                 /\ result_of (ICIE.randomProjectName 5) s = Ok (attempt_name last))
           \/ (exists earlier last e,
                 attempts = earlier ++ [last]
                 /\ length earlier < 5
                 /\ Forall (fun a => answer a = Ok true) earlier
                 /\ answer last = Err e
                 /\ result_of (ICIE.randomProjectName 5) s = Err e)).
Proof.
  split; [reflexivity | split; [reflexivity | split; [|split; [reflexivity|]]]].
  - intros name. unfold candidates. rewrite in_flat_map. split.
    + intros (adjective & Hadj & Hin). apply in_map_iff in Hin.
      destruct Hin as (animal & <- & Hani). eauto.
    + intros (adjective & animal & Hadj & Hani & ->).
      exists adjective. split; [assumption|]. apply in_map_iff. eauto.
  - destruct (randomProjectName_attempts 5 s) as (attempts & Hfrom & Htr & Hend).
    exists attempts. split; [exact Hfrom|].
    split; [unfold new_events; rewrite Htr; apply drop_own_length|].
    split; [|exact Hend].
    apply Forall_forall. intros a _. apply drawn_name_candidate.
Qed.

End Names.

(** ** Init and the authentication round trip *)

Section Init.

Context {W : Type} `{Platform W}.
Variable this : ICIE.t.

Lemma randomProjectName_ok (tries : nat) (s s' : State W) (name : string) :
  ICIE.randomProjectName tries s = (Ok name, s') ->
  exists collisions home,
    Forall collision collisions
    /\ length collisions < tries
    /\ In name candidates
    /\ trace s' = trace s ++ collisions
                  ++ [EvExists (home +:+ "/" +:+ name) (Ok false)].
Proof.
  intros Hrun.
  destruct (randomProjectName_run tries s)
    as (cs & s1 & Hcs & _ & [(_ & E & _) | [(Hlen & h & n & Hn & E & Htr)
                                         | (_ & h & n & e & _ & E & _)]]);
    rewrite E in Hrun; simplify_eq.
  exists cs, h. auto.
Qed.

(** The name search asks nothing but existence checks. *)
Lemma randomProjectName_trace (tries : nat) (s : State W) :
  exists checks,
    trace (snd (ICIE.randomProjectName tries s)) = trace s ++ checks
    /\ Forall (fun e => is_prompt e = false /\ is_auth_response e = false
                        /\ forall u d c, e <> EvInit u d c) checks.
Proof.
  assert (Hcol : forall cs, Forall collision cs ->
            Forall (fun e => is_prompt e = false /\ is_auth_response e = false
                             /\ forall u d c, e <> EvInit u d c) cs).
  { intros cs Hc. eapply Forall_impl; [exact Hc|].
    intros e (h & n & _ & ->). auto. }
  destruct (randomProjectName_run tries s)
    as (cs & s1 & Hcs & _ & [(_ & E & Htr) | [(Hlen & h & n & Hn & E & Htr)
                                           | (_ & h & n & e & _ & E & Htr)]]);
    rewrite E; cbn [snd]; rewrite Htr; eexists; (split; [reflexivity|]).
  - auto.
  - apply Forall_app. split; [auto | repeat constructor; discriminate].
  - apply Forall_app. split; [auto | repeat constructor; discriminate].
Qed.

Ltac unfold_init := unfold ICIE.triggerInit.

(** Use what is known of a name search that the case analysis left folded. *)
Ltac open_name_search :=
  match goal with
  | Hrun : ICIE.randomProjectName _ ?s0 = (Ok _, ?s1) |- _ =>
      let cs := fresh "collisions" in
      let h := fresh "home" in
      let Htr := fresh "Htrace" in
      destruct (randomProjectName_ok _ _ _ _ Hrun) as (cs & h & ? & ? & ? & Htr);
      cbn [trace] in Htr; rewrite Htr; clear Htr
  | Hrun : ICIE.randomProjectName ?n ?s0 = (Err _, ?s1) |- _ =>
      let cs := fresh "checks" in
      let Htr := fresh "Htrace" in
      destruct (randomProjectName_trace n s0) as (cs & Htr & ?);
      rewrite Hrun in Htr; cbn [snd trace] in Htr; rewrite Htr; clear Htr
  end.

(** C6. A successful init leaves these events, in this order: the prompt for
    the task URL, answered; the name search, ending on a candidate whose
    path is free; the creation of the project directory of that name under
    the home directory; the worker's init command for that URL and
    directory, followed by the authentication exchange if the worker asked
    for credentials; the saving of the manifest with the task URL to [.icie]
    in the new directory; the loading of the configuration and the copy of
    its template to [main.cpp] in the new directory; and last the request
    to open the new directory. *)
Theorem triggerInit_order (s : State W) :
  result_of ICIE.triggerInit s = Ok tt ->
  exists task_url collisions home_checked name home project_dir
         challenge exchange config,
    new_events ICIE.triggerInit s =
      EvShowInputBox (prompt_only "Task description URL: ") (Some task_url)
      :: collisions
      ++ [EvExists (home_checked +:+ "/" +:+ name) (Ok false);
          EvMkdir project_dir;
          EvInit task_url project_dir challenge]
      ++ exchange
      ++ [EvManifestSave (project_dir +:+ "/.icie") {| task_url := task_url |};
          EvConfLoad (Ok config);
          EvCopy (template_path (template config)) (project_dir +:+ "/main.cpp");
          EvOpenFolder project_dir false]
    /\ Forall collision collisions
    /\ length collisions < 5
    /\ In name candidates
    /\ project_dir = home +:+ "/" +:+ name
    /\ match challenge with
       | None => exchange = []
       | Some authreq => exists resp, auth_exchange authreq exchange (Some resp)
       end.
Proof.
  unfold_init. run_orchestrator; intros Hok; try discriminate Hok;
    open_name_search; tidy_trace.
  - (* the worker asked for credentials *)
    eexists _, _, _, _, _, _, (Some _), [_; _; _], _.
    split; [reflexivity|]. repeat (split; [eassumption || reflexivity |]).
    eexists. apply credentials_sent.
  - eexists _, _, _, _, _, _, None, [], _.
    split; [reflexivity|]. repeat (split; [eassumption || reflexivity |]).
    reflexivity.
Qed.

(** Cut a list of events, given in full, at its challenge. *)
Ltac cut_at_challenge :=
  first
    [ exists []; eexists; eexists; split; [reflexivity|]
    | eexists [_]; eexists; eexists; split; [reflexivity|]
    | eexists [_; _]; eexists; eexists; split; [reflexivity|]
    | eexists [_; _; _]; eexists; eexists; split; [reflexivity|]
    | eexists [_; _; _; _]; eexists; eexists; split; [reflexivity|]
    | eexists [_; _; _; _; _]; eexists; eexists; split; [reflexivity|]
    | eexists [_; _; _; _; _; _]; eexists; eexists; split; [reflexivity|]
    | eexists [_; _; _; _; _; _; _]; eexists; eexists; split; [reflexivity|]
    | eexists [_; _; _; _; _; _; _; _]; eexists; eexists; split; [reflexivity|] ].

(** C4 (amended). When the worker raises an authentication challenge during
    a submit or an init, the orchestrator shows exactly one username prompt
    right after the challenge; once that is answered, and only then, exactly
    one password prompt, which quotes the username; once both are answered,
    the pair is sent back to the worker, before anything else happens and so
    before the call can be fulfilled.  A dismissed prompt ends the exchange:
    nothing further is asked or sent and the call is rejected.  No other
    prompt or response appears in the run, apart from init's own question
    for the task URL. *)
Theorem auth_round_trip (s : State W) (authreq : AuthRequest) :
  (forall source task_url,
     In (EvSubmit source task_url (Some authreq))
        (new_events (ICIE.triggerSubmit this) s) ->
     exists before exchange outcome,
       new_events (ICIE.triggerSubmit this) s
         = before ++ EvSubmit source task_url (Some authreq) :: exchange
       /\ Forall (fun e => is_prompt e = false /\ is_auth_response e = false) before
       /\ auth_exchange authreq exchange outcome
       /\ (outcome = None ->
           result_of (ICIE.triggerSubmit this) s
             = Err (JsError "did not get input on input box"))
       /\ (result_of (ICIE.triggerSubmit this) s = Ok tt ->
           exists resp, outcome = Some resp))
  /\ (forall task_url project_dir,
     In (EvInit task_url project_dir (Some authreq)) (new_events ICIE.triggerInit s) ->
     exists before exchange after outcome,
       new_events ICIE.triggerInit s
         = EvShowInputBox (prompt_only "Task description URL: ") (Some task_url)
           :: before ++ EvInit task_url project_dir (Some authreq) :: exchange ++ after
       /\ Forall (fun e => is_prompt e = false /\ is_auth_response e = false) before
       /\ Forall (fun e => is_prompt e = false /\ is_auth_response e = false) after
       /\ auth_exchange authreq exchange outcome
       /\ (outcome = None ->
           after = []
           /\ result_of ICIE.triggerInit s
              = Err (JsError "did not get input on input box"))
       /\ (result_of ICIE.triggerInit s = Ok tt -> exists resp, outcome = Some resp)).
Proof.
  split.
  - intros source task_url.
    run_orchestrator; intros Hin; close_membership; cbn [challenge_of];
      cut_at_challenge;
      (split; [repeat constructor|]);
      (split; [first [apply username_dismissed | apply password_dismissed
                     | apply credentials_sent]|]);
      (split; [intros; reflexivity || discriminate |]);
      intros; eauto; discriminate.
  - intros task_url project_dir.
    assert (Hquiet : forall cs, Forall collision cs ->
              Forall (fun e => is_prompt e = false /\ is_auth_response e = false) cs).
    { intros cs Hc. eapply Forall_impl; [exact Hc|].
      intros e (h & n & _ & ->). auto. }
    assert (Hnone : forall cs u d c, Forall collision cs -> ~ In (EvInit u d c) cs).
    { intros cs u d c Hc Hin. rewrite Forall_forall in Hc.
      apply list_elem_of_In in Hin.
      destruct (Hc _ Hin) as (h & n & _ & E). discriminate E. }
    unfold_init. run_orchestrator; try open_name_search; tidy_trace; intros Hin.
    all: cbn [challenge_of] in *.
    all: destruct Hin as [Hin | Hin]; [discriminate Hin|].
    all: try contradiction.
    all: try (exfalso;
              match goal with
              | Hf : Forall _ ?cs, Hi : In _ ?cs |- _ =>
                  rewrite Forall_forall in Hf; apply list_elem_of_In in Hi;
                  destruct (Hf _ Hi) as (_ & _ & Hne); eapply Hne; reflexivity
              end).
    all: apply in_app_or in Hin; destruct Hin as [Hin | Hin];
      [exfalso; eapply Hnone; eassumption|].
    all: close_membership.
    all: eexists (_ ++ [_; _]).
    all: first
      [ eexists [_], _, _; split; [rewrite <- app_assoc; reflexivity|];
        split; [apply Forall_app; split; [auto | repeat constructor]|];
        split; [repeat constructor|];
        split; [apply username_dismissed|]
      | eexists [_; _], _, _; split; [rewrite <- app_assoc; reflexivity|];
        split; [apply Forall_app; split; [auto | repeat constructor]|];
        split; [repeat constructor|];
        split; [apply password_dismissed|]
      | eexists [_; _; _], _, _; split; [rewrite <- app_assoc; reflexivity|];
        split; [apply Forall_app; split; [auto | repeat constructor]|];
        split; [repeat constructor|];
        split; [apply credentials_sent|] ].
    all: split; [intros; (split; reflexivity) || discriminate |].
    all: intros; eauto; discriminate.
Qed.

End Init.

(** ** Concrete runs in the simulated world *)

Ltac pick_member := vm_compute; repeat (first [left; reflexivity | right]).

Lemma submit_hard_stop_witness :
  In (EvTest "/w/main.e" "/w/tests" (Ok false))
     (new_events (ICIE.triggerSubmit Sim.icie) (Sim.boot Sim.failing))
  /\ result_of (ICIE.triggerSubmit Sim.icie) (Sim.boot Sim.failing)
     = Err (Thrown "Not all tests passed").
Proof.
  assert (Hin : In (EvTest "/w/main.e" "/w/tests" (Ok false))
                   (new_events (ICIE.triggerSubmit Sim.icie) (Sim.boot Sim.failing)))
    by pick_member.
  split; [exact Hin|].
  exact (proj1 (submit_hard_stop Sim.icie (Sim.boot Sim.failing) _ _ Hin)).
Defined.

Lemma inputbox_cancellation_witness :
  result_of (inputbox (prompt_only "Task description URL: "))
            (Sim.boot (Sim.with_answers [] Sim.project))
    = Err (JsError "did not get input on input box")
  /\ result_of (inputbox (prompt_only "Task description URL: "))
               (Sim.boot (Sim.with_answers [Some ""] Sim.project))
    = Ok "".
Proof.
  split.
  - exact (proj1 (inputbox_cancellation (prompt_only "Task description URL: ")
                    (Sim.boot (Sim.with_answers [] Sim.project))) eq_refl).
  - exact (proj1 (proj2 (proj2 (proj2
             (inputbox_cancellation (prompt_only "Task description URL: ")
                (Sim.boot (Sim.with_answers [Some ""] Sim.project)))))) eq_refl).
Defined.

Lemma flush_precedes_every_stat_witness :
  result_of (ICIE.requiresCompilation Sim.icie) (Sim.boot Sim.built) = Ok false
  /\ new_events (ICIE.assureCompiled Sim.icie) (Sim.boot Sim.built)
     = [EvSaveAll; EvStat "/w/main.cpp" (Ok {| mtime := 10 |});
        EvStat "/w/main.e" (Ok {| mtime := 15 |})].
Proof.
  assert (Hfresh : result_of (ICIE.requiresCompilation Sim.icie) (Sim.boot Sim.built)
                   = Ok false) by (vm_compute; reflexivity).
  split; [exact Hfresh|].
  exact (proj2 (proj2 (proj2
           (flush_precedes_every_stat Sim.icie (Sim.boot Sim.built)))) Hfresh).
Defined.

Lemma auth_round_trip_witness :
  exists before exchange outcome,
    new_events (ICIE.triggerSubmit Sim.icie) (Sim.boot Sim.answering)
      = before ++ EvSubmit "/w/main.cpp" "https://judge.example/task/1"
                           (Some Sim.judge) :: exchange
    /\ Forall (fun e => is_prompt e = false /\ is_auth_response e = false) before
    /\ auth_exchange Sim.judge exchange outcome
    /\ (outcome = None ->
        result_of (ICIE.triggerSubmit Sim.icie) (Sim.boot Sim.answering)
          = Err (JsError "did not get input on input box"))
    /\ (result_of (ICIE.triggerSubmit Sim.icie) (Sim.boot Sim.answering) = Ok tt ->
        exists resp, outcome = Some resp).
Proof.
  apply (proj1 (auth_round_trip Sim.icie (Sim.boot Sim.answering) Sim.judge)).
  pick_member.
Defined.

Lemma triggerInit_order_witness :
  result_of ICIE.triggerInit (Sim.boot Sim.fresh_machine) = Ok tt
  /\ exists task_url collisions home_checked name home project_dir
            challenge exchange config,
       new_events ICIE.triggerInit (Sim.boot Sim.fresh_machine) =
         EvShowInputBox (prompt_only "Task description URL: ") (Some task_url)
         :: collisions
         ++ [EvExists (home_checked +:+ "/" +:+ name) (Ok false);
             EvMkdir project_dir;
             EvInit task_url project_dir challenge]
         ++ exchange
         ++ [EvManifestSave (project_dir +:+ "/.icie") {| task_url := task_url |};
             EvConfLoad (Ok config);
             EvCopy (template_path (template config)) (project_dir +:+ "/main.cpp");
             EvOpenFolder project_dir false]
       /\ Forall collision collisions
       /\ length collisions < 5
       /\ In name candidates
       /\ project_dir = home +:+ "/" +:+ name
       /\ match challenge with
          | None => exchange = []
          | Some authreq => exists resp, auth_exchange authreq exchange (Some resp)
          end.
Proof.
  assert (Hok : result_of ICIE.triggerInit (Sim.boot Sim.fresh_machine) = Ok tt)
    by (vm_compute; reflexivity).
  split; [exact Hok|].
  exact (triggerInit_order (Sim.boot Sim.fresh_machine) Hok).
Defined.

(** The run behind it, event by event. *)
Example triggerInit_on_fresh_machine :
  new_events ICIE.triggerInit (Sim.boot Sim.fresh_machine)
  = [EvShowInputBox (prompt_only "Task description URL: ")
                    (Some "https://judge.example/task/7");
     EvExists "/home/u/playful-capybara" (Ok true);
     EvExists "/home/u/kawaii-hedgehog" (Ok false);
     EvMkdir "/home/u/kawaii-hedgehog";
     EvInit "https://judge.example/task/7" "/home/u/kawaii-hedgehog" None;
     EvManifestSave "/home/u/kawaii-hedgehog/.icie"
                    {| task_url := "https://judge.example/task/7" |};
     EvConfLoad (Ok {| template := {| template_path := "/tpl/template.cpp" |} |});
     EvCopy "/tpl/template.cpp" "/home/u/kawaii-hedgehog/main.cpp";
     EvOpenFolder "/home/u/kawaii-hedgehog" false].
Proof. vm_compute. reflexivity. Qed.

(** C4, as stated, fails when the user dismisses the username prompt: the
    worker has raised its challenge, one username prompt is shown, and no
    password prompt follows it; the submit is rejected. *)
Lemma auth_username_dismissed :
  new_events (ICIE.triggerSubmit Sim.icie) (Sim.boot Sim.dismissing)
  = [EvSaveAll; EvStat "/w/main.cpp" (Ok {| mtime := 10 |});
     EvStat "/w/main.e" Sim.enoent; EvSaveAll; EvBuild "/w/main.cpp";
     EvTest "/w/main.e" "/w/tests" (Ok true); EvManifestLoad "/w/.icie";
     EvSubmit "/w/main.cpp" "https://judge.example/task/1" (Some Sim.judge);
     EvShowInputBox (username_prompt Sim.judge) None]
  /\ List.filter is_prompt
       (new_events (ICIE.triggerSubmit Sim.icie) (Sim.boot Sim.dismissing))
     = [EvShowInputBox (username_prompt Sim.judge) None]
  /\ result_of (ICIE.triggerSubmit Sim.icie) (Sim.boot Sim.dismissing)
     = Err (JsError "did not get input on input box").
Proof. vm_compute. repeat split. Qed.

(** C8, as stated, fails on the password: it is asked for through the same
    unmasked input box as the username. *)
Lemma respondAuthreq_password_echoed :
  new_events (ICIE.respondAuthreq Sim.judge) (Sim.boot Sim.answering)
  = [EvShowInputBox (prompt_only "Username at judge.example") (Some "alice");
     EvShowInputBox (prompt_only "Password for alice at judge.example")
                    (Some "hunter2")]
  /\ masked (prompt_only "Password for alice at judge.example") = false.
Proof. vm_compute. split; reflexivity. Qed.

(** ** Frames *)

Module FrameProofs.

Import multijson JsonText.

(** Scanning a concatenation is scanning its first part and going on from
    where that left off. *)
Lemma scan_app (a b : list byte) :
  forall st pending,
    scan st pending (a ++ b) =
      let '(values1, (st1, pending1)) := scan st pending a in
      let '(values2, final) := scan st1 pending1 b in
      (values1 ++ values2, final).
Proof.
  induction a as [|x a IH]; intros st pending; simpl.
  - destruct (scan st pending b); reflexivity.
  - destruct (depth st).
    + destruct (is_open x); apply IH.
    + destruct (depth (step st x)).
      * rewrite IH.
        destruct (scan top [] a) as [v1 [st1 p1]].
        destruct (scan st1 p1 b). reflexivity.
      * apply IH.
Qed.

Lemma scan_string (s : list byte) :
  string_body s ->
  forall n pending rest,
    scan (inside n InString) pending (s ++ quote :: rest)
    = scan (inside n Structural) (quote :: rev s ++ pending) rest.
Proof.
  induction 1 as [|b s Hq Hb _ IH|b s _ IH]; intros n pending rest.
  - reflexivity.
  - cbn [app scan inside depth]. unfold step; cbn [mode inside].
    rewrite Hb, Hq. cbn [depth]. fold (inside n InString).
    rewrite IH. cbn [rev]. now rewrite <- app_assoc.
  - cbn [app scan inside depth]. unfold step; cbn.
    fold (inside n InString). rewrite IH. cbn [rev].
    now rewrite <- !app_assoc.
Qed.

Lemma scan_balanced (s : list byte) :
  balanced s ->
  forall n pending rest,
    scan (inside n Structural) pending (s ++ rest)
    = scan (inside n Structural) (rev s ++ pending) rest.
Proof.
  induction 1 as [|b s Hq Ho Hc _ IH|s t Hs _ IH|s t _ IHs _ IHt|s t _ IHs _ IHt];
    intros n pending rest.
  - reflexivity.
  - cbn [app scan inside depth]. unfold step; cbn [mode inside].
    rewrite Hq, Ho, Hc. cbn [depth]. fold (inside n Structural).
    rewrite IH. cbn [rev]. now rewrite <- app_assoc.
  - cbn [app scan inside depth]. unfold step; cbn.
    fold (inside n InString). rewrite <- app_assoc. cbn [app].
    rewrite scan_string by assumption. rewrite IH.
    cbn [rev]. rewrite rev_app_distr. cbn [rev app].
    now rewrite <- !app_assoc.
  - cbn [app scan inside depth]. unfold step; cbn.
    fold (inside (S n) Structural). rewrite <- app_assoc. cbn [app].
    rewrite IHs. cbn [scan inside depth]. unfold step; cbn.
    fold (inside n Structural). rewrite IHt.
    cbn [rev]. rewrite rev_app_distr. cbn [rev app].
    now rewrite <- !app_assoc.
  - cbn [app scan inside depth]. unfold step; cbn.
    fold (inside (S n) Structural). rewrite <- app_assoc. cbn [app].
    rewrite IHs. cbn [scan inside depth]. unfold step; cbn.
    fold (inside n Structural). rewrite IHt.
    cbn [rev]. rewrite rev_app_distr. cbn [rev app].
    now rewrite <- !app_assoc.
Qed.

(** A document at the head of the input comes out whole, and the scan goes
    on after it from the top. *)
Lemma scan_document (d : list byte) :
  document d ->
  forall rest,
    scan top [] (d ++ rest)
    = (d :: fst (scan top [] rest), snd (scan top [] rest)).
Proof.
  intros [s Hs|s Hs] rest.
  - cbn [app scan top depth]. cbn. fold (inside 0 Structural).
    rewrite <- app_assoc. rewrite scan_balanced by assumption.
    cbn. destruct (scan top [] rest) as [values final]. cbn.
    rewrite rev_app_distr, rev_involutive. reflexivity.
  - cbn [app scan top depth]. cbn. fold (inside 0 Structural).
    rewrite <- app_assoc. rewrite scan_balanced by assumption.
    cbn. destruct (scan top [] rest) as [values final]. cbn.
    rewrite rev_app_distr, rev_involutive. reflexivity.
Qed.

Lemma space_opens_nothing (b : byte) : is_space b = true -> is_open b = false.
Proof.
  unfold is_space. rewrite !orb_true_iff.
  intros [[[E|E]|E]|E]; apply Byte.byte_dec_bl in E; subst; reflexivity.
Qed.

Lemma scan_separator (separator rest : list byte) :
  Forall (fun b => is_space b = true) separator ->
  scan top [] (separator ++ rest) = scan top [] rest.
Proof.
  induction 1 as [|b separator Hb _ IH]; [reflexivity|].
  cbn [app scan top depth]. now rewrite (space_opens_nothing b Hb).
Qed.

Lemma scan_stream (separator : list byte) (docs : list (list byte)) :
  Forall document docs ->
  Forall (fun b => is_space b = true) separator ->
  scan top [] (stream separator docs) = (docs, (top, [])).
Proof.
  intros Hdocs Hsep. induction Hdocs as [|d docs Hd _ IH]; [reflexivity|].
  unfold stream in *. cbn [map concat]. rewrite <- app_assoc.
  rewrite scan_document by assumption.
  rewrite scan_separator by assumption. now rewrite IH.
Qed.

Lemma resumable_top : resumable top [].
Proof. reflexivity. Qed.

Lemma scan_resumable (input : list byte) :
  forall st pending,
    resumable st pending ->
    resumable (fst (snd (scan st pending input))) (snd (snd (scan st pending input))).
Proof.
  induction input as [|b input IH]; intros st pending Hres; [exact Hres|].
  cbn [scan]. destruct (depth st) eqn:Hd.
  - destruct (is_open b) eqn:Hb; apply IH.
    + unfold resumable. cbn. now rewrite Hb.
    + exact resumable_top.
  - destruct (depth (step st b)) eqn:Hd'.
    + specialize (IH top [] resumable_top).
      destruct (scan top [] input) as [values final]. exact IH.
    + apply IH. unfold resumable in *. cbn [rev].
      rewrite scan_app, Hres. cbn [scan]. now rewrite Hd, Hd'.
Qed.

Lemma read_after_write (this : Parser) (st : Scan) (pending bytes : list byte) :
  resumable st pending ->
  buffer this = rev pending ->
  read (write this bytes)
  = (fst (scan st pending bytes),
     {| buffer := rev (snd (snd (scan st pending bytes))) |}).
Proof.
  intros Hres Hbuf. unfold read, write. cbn [buffer]. rewrite Hbuf.
  rewrite scan_app, Hres.
  destruct (scan st pending bytes) as [values [st' pending']]. reflexivity.
Qed.

Lemma keep_all (reactions seen : list native.Reaction) :
  fold_left (fun a reaction => native.keep reaction a) reactions seen
  = seen ++ reactions.
Proof.
  revert seen. induction reactions as [|r reactions IH]; intros seen; cbn.
  - now rewrite app_nil_r.
  - rewrite IH. unfold native.keep. now rewrite <- app_assoc.
Qed.

(** Whatever the chunking, the subscriber has seen what one scan of the
    whole stream finds. *)
Lemma on_stream_scan (chunks : list (list byte)) :
  forall (this : native.Logic) seen st pending,
    resumable st pending ->
    buffer (native.parser this) = rev pending ->
    exists this',
      native.on_stream native.keep (map native.ChunkBuffer chunks) (this, seen)
      = Ok (this', seen ++ fst (scan st pending (concat chunks)))
      /\ buffer (native.parser this')
         = rev (snd (snd (scan st pending (concat chunks)))).
Proof.
  induction chunks as [|c chunks IH]; intros this seen st pending Hres Hbuf.
  - exists this. cbn. rewrite app_nil_r. auto.
  - cbn [map native.on_stream native.on_data concat].
    rewrite (read_after_write _ st pending c Hres Hbuf).
    rewrite keep_all.
    pose proof (scan_resumable c st pending Hres) as Hres'.
    rewrite scan_app.
    destruct (scan st pending c) as [values [st' pending']].
    cbn [fst snd] in *.
    edestruct (IH {| native.path := native.path this;
                     native.parser := {| buffer := rev pending' |} |}
                  (seen ++ values) st' pending' Hres' eq_refl)
      as (this' & Hrun & Hbuf').
    exists this'. rewrite Hrun.
    destruct (scan st' pending' (concat chunks)) as [values' final].
    cbn [fst snd] in *. rewrite <- app_assoc. auto.
Qed.

(** The values found are made of bytes that were scanned or pending. *)
Lemma scan_conserves (input : list byte) :
  forall st pending,
    length (concat (fst (scan st pending input)))
    <= length pending + length input.
Proof.
  induction input as [|b input IH]; intros st pending; cbn [scan].
  - cbn. lia.
  - destruct (depth st).
    + destruct (is_open b).
      * specialize (IH {| depth := 1; mode := Structural |} [b]).
        cbn [length] in *. lia.
      * specialize (IH top []). cbn [length] in *. lia.
    + destruct (depth (step st b)).
      * specialize (IH top []).
        destruct (scan top [] input) as [values final].
        cbn [fst concat length] in *.
        rewrite length_app, length_rev. cbn [length]. lia.
      * specialize (IH (step st b) (b :: pending)). cbn [length] in *. lia.
Qed.

(** Inside a document, a scan that finds no value keeps every byte. *)
Lemma scan_keeps (input : list byte) :
  forall st pending,
    depth st <> 0 ->
    fst (scan st pending input) = [] ->
    snd (snd (scan st pending input)) = rev input ++ pending.
Proof.
  induction input as [|b input IH]; intros st pending Hd Hnone; cbn [scan] in *.
  - reflexivity.
  - destruct (depth st) eqn:E; [congruence|].
    destruct (depth (step st b)) eqn:E'.
    + destruct (scan top [] input). discriminate Hnone.
    + rewrite IH by (assumption || congruence).
      cbn [rev]. now rewrite <- app_assoc.
Qed.

Lemma document_opens (d : list byte) :
  document d -> exists b rest, d = b :: rest /\ is_open b = true.
Proof. intros [s _|s _]; eexists _, _; split; reflexivity. Qed.

(** A truncated document yields no value and stays in the buffer whole. *)
Lemma scan_truncated (d p q : list byte) :
  document d -> d = p ++ q -> q <> [] ->
  exists st, scan top [] p = ([], (st, rev p)).
Proof.
  intros Hd Hsplit Hq.
  pose proof (scan_document d Hd []) as Hwhole.
  rewrite app_nil_r in Hwhole. cbn in Hwhole.
  rewrite Hsplit, scan_app in Hwhole.
  pose proof (scan_conserves p top []) as Hlen.
  destruct (scan top [] p) as [values [st pending]] eqn:Hp.
  destruct (scan st pending q) as [values' final].
  injection Hwhole as Hvalues _.
  destruct values as [|v values].
  - exists st. f_equal. f_equal.
    destruct p as [|b p]; [cbn in Hp |- *; congruence|].
    destruct (document_opens d Hd) as (b' & rest & Hb & Hopen).
    rewrite Hsplit in Hb. injection Hb as <- _.
    cbn [scan top depth] in Hp. rewrite Hopen in Hp.
    pose proof (scan_keeps p {| depth := 1; mode := Structural |} [b]) as Hkeep.
    rewrite Hp in Hkeep. cbn [fst snd depth] in Hkeep.
    rewrite Hkeep by (auto || discriminate). reflexivity.
  - exfalso. injection Hvalues as -> _.
    cbn [fst concat length] in Hlen.
    rewrite !length_app in Hlen.
    destruct q; [congruence | cbn [length] in Hlen; lia].
Qed.

End FrameProofs.

(** ** The texts of JSON values are documents *)

Module JsonProofs.

Import multijson JsonText Json.

(** Induction on values, the items of arrays and members of objects
    included. *)
Lemma value_induction (P : value -> Prop) :
  P Null ->
  (forall b, P (Bool b)) ->
  (forall n, P (Number n)) ->
  (forall s, P (String s)) ->
  (forall items, Forall P items -> P (Array items)) ->
  (forall members, Forall (fun member => P (snd member)) members ->
                   P (Object members)) ->
  forall v, P v.
Proof.
  intros Hnull Hbool Hnumber Hstring Harray Hobject.
  fix IH 1. intros [|b|n|s|items|members].
  - exact Hnull.
  - apply Hbool.
  - apply Hnumber.
  - apply Hstring.
  - apply Harray.
    refine ((fix items_ok (l : list value) : Forall P l :=
               match l with
               | [] => @List.Forall_nil _ P
               | v :: l' => @List.Forall_cons _ P v l' (IH v) (items_ok l')
               end) items).
  - apply Hobject.
    refine ((fix members_ok (l : list (list byte * value))
               : Forall (fun member => P (snd member)) l :=
               match l with
               | [] => @List.Forall_nil _ (fun member => P (snd member))
               | m :: l' =>
                   @List.Forall_cons _ (fun member => P (snd member)) m l'
                     (IH (snd m)) (members_ok l')
               end) members).
Qed.

Example render_number_samples :
  render_number 120 = [x31; x32; x30]
  /\ render_number (-7) = [x2d; x37]
  /\ render_number 0 = [x30]
  /\ render_string [x61; x22; x0a; x1f]
     = [x22; x61; x5c; x22; x5c; x6e; x5c; x75; x30; x30; x31; x66; x22].
Proof. repeat split. Qed.

Lemma balanced_app (s t : list byte) :
  balanced s -> balanced t -> balanced (s ++ t).
Proof.
  intros Hs Ht.
  induction Hs as [|b s Hq Ho Hc _ IH|s u Hbody _ IH|s u Hs' _ _ IH|s u Hs' _ _ IH].
  - exact Ht.
  - cbn [app]. now apply bal_plain.
  - cbn [app]. rewrite <- app_assoc. cbn [app]. now apply bal_string.
  - cbn [app]. rewrite <- app_assoc. cbn [app]. now apply bal_object.
  - cbn [app]. rewrite <- app_assoc. cbn [app]. now apply bal_array.
Qed.

Lemma balanced_plain (l : list byte) : Forall plain l -> balanced l.
Proof.
  induction 1 as [|b l (Hq & _ & Ho & Hc) _ IH]; [constructor|].
  now apply bal_plain.
Qed.

Lemma digit_plain (d : N) : plain (digit d).
Proof.
  unfold digit. generalize (N.to_nat d) as n. intros n.
  do 10 (destruct n as [|n]; [repeat split; reflexivity|]).
  destruct n; repeat split; reflexivity.
Qed.

Lemma hex_digit_plain (d : N) : plain (hex_digit d).
Proof.
  unfold hex_digit. generalize (N.to_nat d) as n. intros n.
  do 16 (destruct n as [|n]; [repeat split; reflexivity|]).
  destruct n; repeat split; reflexivity.
Qed.

Lemma digits_plain (fuel : nat) :
  forall n acc, Forall plain acc -> Forall plain (digits fuel n acc).
Proof.
  induction fuel as [|fuel IH]; intros n acc Hacc; cbn [digits]; [exact Hacc|].
  assert (Forall plain (digit (n mod 10) :: acc))
    by (constructor; [apply digit_plain | exact Hacc]).
  destruct (n / 10 =? 0)%N; [assumption | now apply IH].
Qed.

Lemma render_number_plain (n : Z) : Forall plain (render_number n).
Proof.
  destruct n as [|p|p]; cbn [render_number].
  - repeat constructor.
  - apply digits_plain. constructor.
  - constructor; [repeat split; reflexivity|]. apply digits_plain. constructor.
Qed.

Lemma escape_body (b : byte) (t : list byte) :
  string_body t -> string_body (escape b ++ t).
Proof.
  intros Ht. unfold escape.
  destruct (is_quote b) eqn:Hq; [now apply sb_escape|].
  destruct (is_backslash b) eqn:Hb; [now apply sb_escape|].
  destruct (short_escape b) as [letter|]; [now apply sb_escape|].
  destruct (Byte.to_N b <? 32)%N.
  - cbn [app]. apply sb_escape.
    do 2 (apply sb_char; [reflexivity | reflexivity |]).
    apply sb_char; [apply hex_digit_plain | apply hex_digit_plain |].
    apply sb_char; [apply hex_digit_plain | apply hex_digit_plain |].
    exact Ht.
  - now apply sb_char.
Qed.

Lemma escaped_body (s : list byte) : string_body (flat_map escape s).
Proof.
  induction s as [|b s IH]; cbn [flat_map]; [constructor|].
  now apply escape_body.
Qed.

Lemma render_string_balanced (s : list byte) : balanced (render_string s).
Proof.
  unfold render_string. apply (bal_string (flat_map escape s) []).
  - apply escaped_body.
  - constructor.
Qed.

Lemma join_balanced (parts : list (list byte)) :
  Forall balanced parts -> balanced (join parts).
Proof.
  induction 1 as [|part parts Hpart Hparts IH]; [constructor|].
  cbn [join]. destruct parts as [|next parts]; [exact Hpart|].
  apply balanced_app; [exact Hpart|].
  apply bal_plain; [reflexivity | reflexivity | reflexivity | exact IH].
Qed.

Lemma render_balanced (v : value) : balanced (render v).
Proof.
  induction v as [|b|n|s|items IH|members IH] using value_induction;
    cbn [render].
  - apply balanced_plain. repeat constructor.
  - destruct b; apply balanced_plain; repeat constructor.
  - apply balanced_plain, render_number_plain.
  - apply render_string_balanced.
  - apply (bal_array (join (map render items)) []); [|constructor].
    apply join_balanced. induction IH; constructor; assumption.
  - apply (bal_object (join (map _ members)) []); [|constructor].
    apply join_balanced. induction IH as [|m members Hm _ IHm]; constructor.
    + apply balanced_app; [apply render_string_balanced|].
      apply bal_plain; [reflexivity | reflexivity | reflexivity | exact Hm].
    + exact IHm.
Qed.

Lemma items_balanced (items : list value) :
  balanced (join (map render items)).
Proof.
  apply join_balanced.
  induction items; constructor; [apply render_balanced | assumption].
Qed.

Lemma members_balanced (members : list (list byte * value)) :
  balanced (join (map (fun member =>
                         render_string (fst member) ++ colon :: render (snd member))
                      members)).
Proof.
  apply join_balanced.
  induction members as [|m members IH]; constructor; [|exact IH].
  apply balanced_app; [apply render_string_balanced|].
  apply bal_plain; [reflexivity | reflexivity | reflexivity |].
  apply render_balanced.
Qed.

(** The text of an array or an object is a document. *)
Lemma render_document (v : value) :
  is_container v = true -> document (render v).
Proof.
  destruct v as [|b|n|s|items|members]; try discriminate; intros _;
    cbn [render].
  - apply doc_array, items_balanced.
  - apply doc_object, members_balanced.
Qed.

(** No text of a value holds a line feed: inside a string it is written
    as an escape, and nothing else writes one. *)
Lemma escape_one_line (b : byte) : ~ In x0a (escape b).
Proof.
  destruct b; vm_compute; intuition discriminate.
Qed.

Lemma render_string_one_line (s : list byte) : ~ In x0a (render_string s).
Proof.
  unfold render_string. intros [E | Hin]; [discriminate E|].
  apply in_app_or in Hin. destruct Hin as [Hin | [E | []]]; [|discriminate E].
  apply in_flat_map in Hin. destruct Hin as (b & _ & Hin).
  exact (escape_one_line b Hin).
Qed.

Lemma digit_one_line (d : N) : digit d <> x0a.
Proof.
  unfold digit. generalize (N.to_nat d) as n. intros n.
  do 10 (destruct n as [|n]; [discriminate|]). destruct n; discriminate.
Qed.

Lemma digits_one_line (fuel : nat) :
  forall n acc, ~ In x0a acc -> ~ In x0a (digits fuel n acc).
Proof.
  induction fuel as [|fuel IH]; intros n acc Hacc; cbn [digits]; [exact Hacc|].
  assert (~ In x0a (digit (n mod 10) :: acc)).
  { intros [E | Hin]; [exact (digit_one_line _ E) | exact (Hacc Hin)]. }
  destruct (n / 10 =? 0)%N; [assumption | now apply IH].
Qed.

Lemma render_number_one_line (n : Z) : ~ In x0a (render_number n).
Proof.
  destruct n as [|p|p]; cbn [render_number].
  - cbn. intuition discriminate.
  - apply digits_one_line. intros [].
  - intros [E | Hin]; [discriminate E|].
    revert Hin. apply digits_one_line. intros [].
Qed.

Lemma join_one_line (parts : list (list byte)) :
  Forall (fun part => ~ In x0a part) parts -> ~ In x0a (join parts).
Proof.
  induction 1 as [|part parts Hpart Hparts IH]; [intros []|].
  cbn [join]. destruct parts as [|next parts]; [exact Hpart|].
  intros Hin. apply in_app_or in Hin.
  destruct Hin as [Hin | [E | Hin]];
    [exact (Hpart Hin) | discriminate E | exact (IH Hin)].
Qed.

Lemma render_one_line (v : value) : ~ In x0a (render v).
Proof.
  induction v as [|b|n|s|items IH|members IH] using value_induction;
    cbn [render].
  - cbn. intuition discriminate.
  - destruct b; cbn; intuition discriminate.
  - apply render_number_one_line.
  - apply render_string_one_line.
  - intros [E | Hin]; [discriminate E|].
    apply in_app_or in Hin. destruct Hin as [Hin | [E | []]]; [|discriminate E].
    revert Hin. apply join_one_line.
    induction IH; constructor; assumption.
  - intros [E | Hin]; [discriminate E|].
    apply in_app_or in Hin. destruct Hin as [Hin | [E | []]]; [|discriminate E].
    revert Hin. apply join_one_line.
    induction IH as [|m members Hm _ IHm]; constructor; [|exact IHm].
    intros Hin. apply in_app_or in Hin.
    destruct Hin as [Hin | [E | Hin]];
      [exact (render_string_one_line _ Hin) | discriminate E | exact (Hm Hin)].
Qed.

End JsonProofs.

(** ** The round trip *)

(** C3. Whatever the chunks into which the worker's output is cut, the
    documents delivered to the subscriber of [recv] are the documents that
    were sent, in order, each as it was sent; this holds for documents
    concatenated directly or separated by JSON whitespace such as the
    newline of the wire format, and in particular for the texts of any JSON
    objects and arrays.  And a read after a write that ends inside a
    document returns the documents before it and no value for it, keeping
    what has arrived of it in the buffer; the read after the write of its
    remaining bytes returns it. *)
Theorem frame_round_trip :
  (forall (extensionPath : string) (separator : list byte)
          (docs chunks : list (list byte)),
      Forall JsonText.document docs ->
      Forall (fun b => JsonText.is_space b = true) separator ->
      concat chunks = JsonText.stream separator docs ->
      native.received extensionPath chunks = Ok docs)
  /\ (forall (extensionPath : string) (separator : list byte)
             (values : list Json.value) (chunks : list (list byte)),
      Forall (fun v => Json.is_container v = true) values ->
      Forall (fun b => JsonText.is_space b = true) separator ->
      concat chunks = JsonText.stream separator (map Json.render values) ->
      native.received extensionPath chunks = Ok (map Json.render values))
  /\ (forall (separator : list byte) (docs : list (list byte)) (d p q : list byte),
      Forall JsonText.document docs ->
      Forall (fun b => JsonText.is_space b = true) separator ->
      JsonText.document d -> d = p ++ q -> q <> [] ->
      multijson.read
        (multijson.write multijson.new (JsonText.stream separator docs ++ p))
        = (docs, {| multijson.buffer := p |})
      /\ multijson.read (multijson.write {| multijson.buffer := p |} q)
         = ([d], multijson.new)).
Proof.
  assert (Hreceived : forall extensionPath separator docs chunks,
             Forall JsonText.document docs ->
             Forall (fun b => JsonText.is_space b = true) separator ->
             concat chunks = JsonText.stream separator docs ->
             native.received extensionPath chunks = Ok docs).
  { intros extensionPath separator docs chunks Hdocs Hsep Hchunks.
    unfold native.received.
    destruct (FrameProofs.on_stream_scan chunks (native.new extensionPath) []
                multijson.top [] FrameProofs.resumable_top eq_refl)
      as (this' & -> & _).
    rewrite Hchunks, FrameProofs.scan_stream by assumption. reflexivity. }
  split; [exact Hreceived | split].
  - intros extensionPath separator values chunks Hvalues Hsep Hchunks.
    apply (Hreceived extensionPath separator); [|assumption..].
    clear Hchunks.
    induction Hvalues as [|v values Hv _ IH]; cbn [map]; constructor;
      [now apply JsonProofs.render_document | exact IH].
  - intros separator docs d p q Hdocs Hsep Hd Hsplit Hq.
    destruct (FrameProofs.scan_truncated d p q Hd Hsplit Hq) as (st & Hp).
    split.
    + unfold multijson.read, multijson.write, multijson.new.
      cbn [multijson.buffer app].
      rewrite FrameProofs.scan_app, FrameProofs.scan_stream by assumption.
      rewrite Hp. now rewrite app_nil_r, rev_involutive.
    + unfold multijson.read, multijson.write, multijson.new.
      cbn [multijson.buffer]. rewrite <- Hsplit.
      pose proof (FrameProofs.scan_document d Hd []) as Hwhole.
      rewrite app_nil_r in Hwhole. rewrite Hwhole. reflexivity.
Qed.

(** The sample texts are those of the sample values. *)
Example wire_texts :
  Json.render Wire.first_value = Wire.first_doc
  /\ Json.render Wire.second_value = Wire.second_doc
  /\ concat Wire.chunks
     = JsonText.stream Wire.newline [Wire.first_doc; Wire.second_doc].
Proof. repeat split. Qed.

Lemma frame_round_trip_witness :
  native.received "/ext" Wire.chunks = Ok [Wire.first_doc; Wire.second_doc]
  /\ multijson.read (multijson.write multijson.new [x7b; x22; x61; x22; x3a; x22; x7d])
     = ([], {| multijson.buffer := [x7b; x22; x61; x22; x3a; x22; x7d] |})
  /\ multijson.read
       (multijson.write {| multijson.buffer := [x7b; x22; x61; x22; x3a; x22; x7d] |}
                        [x22; x7d])
     = ([Wire.first_doc], multijson.new).
Proof.
  split.
  - apply (proj1 (proj2 frame_round_trip) "/ext" Wire.newline
             [Wire.first_value; Wire.second_value] Wire.chunks).
    + repeat constructor.
    + repeat constructor.
    + reflexivity.
  - apply (proj2 (proj2 frame_round_trip) Wire.newline [] Wire.first_doc
             [x7b; x22; x61; x22; x3a; x22; x7d] [x22; x7d]).
    + constructor.
    + repeat constructor.
    + apply (JsonProofs.render_document Wire.first_value). reflexivity.
    + reflexivity.
    + discriminate.
Defined.

(** * More of the orchestrator *)

(** ** Build and test *)

(** As [run_orchestrator], for goals that hold the events of several runs. *)
Ltac run_all := run_orchestrator; rewrite ?drop_own_length.

Section Testing.

Context {W : Type} `{Platform W}.
Variable this : ICIE.t.

Let src := Directory.source (ICIE.dir this).
Let exe := Directory.executable (ICIE.dir this).
Let tests := Directory.testsDirectory (ICIE.dir this).

(** X1. A test whose freshness check asks for a build, and whose build the
    worker accepts, flushes again, sends the build of the source, then sends
    the test of the executable against the tests directory, and returns the
    worker's verdict on that test. *)
Theorem triggerTest_rebuilds (s : State W) :
  result_of (ICIE.requiresCompilation this) s = Ok true ->
  build_result this s = Ok tt ->
  exists verdict,
    new_events (ICIE.triggerTest this) s
      = new_events (ICIE.requiresCompilation this) s
        ++ [EvSaveAll; EvBuild src; EvTest exe tests verdict]
    /\ result_of (ICIE.triggerTest this) s = verdict.
Proof.
  unfold build_result, world_after, flushed, src, exe, tests.
  run_all; cbn; intros; simplify_eq; eexists; split; reflexivity.
Qed.

(** X2. When the worker rejects the build, the test is rejected with the
    build's failure and no test command is sent. *)
Theorem triggerTest_stops_at_failed_build (s : State W) (e : Exn) :
  result_of (ICIE.requiresCompilation this) s = Ok true ->
  build_result this s = Err e ->
  result_of (ICIE.triggerTest this) s = Err e
  /\ new_events (ICIE.triggerTest this) s
     = new_events (ICIE.requiresCompilation this) s ++ [EvSaveAll; EvBuild src]
  /\ Forall (fun ev => is_test ev = false) (new_events (ICIE.triggerTest this) s).
Proof.
  unfold build_result, world_after, flushed, src.
  run_all; cbn; intros; simplify_eq;
    (split; [reflexivity | split; [reflexivity | repeat constructor]]).
Qed.

(** X3. When the freshness check finds the executable up to date, the test
    builds nothing and flushes only once: after the check, its one further
    call is the test command, whose verdict it returns. *)
Theorem triggerTest_reuses_executable (s : State W) :
  result_of (ICIE.requiresCompilation this) s = Ok false ->
  exists verdict,
    new_events (ICIE.triggerTest this) s
      = [EvSaveAll; EvStat src (source_stat this (world s));
         EvStat exe (executable_stat this (world s));
         EvTest exe tests verdict]
    /\ result_of (ICIE.triggerTest this) s = verdict.
Proof.
  unfold source_stat, executable_stat, flushed, src, exe, tests.
  run_all; cbn; intros; simplify_eq; eexists; split; reflexivity.
Qed.

(** X4. Whatever happens, a test calls nothing but flushes, stats, the build
    and the test: it never prompts, never touches the manifest or the
    configuration, never submits.  It sends at most one build and at most
    one test, and a test command is always its last call. *)
Theorem triggerTest_footprint (s : State W) :
  Forall (fun ev => test_step ev = true) (new_events (ICIE.triggerTest this) s)
  /\ length (List.filter is_build (new_events (ICIE.triggerTest this) s)) <= 1
  /\ length (List.filter is_test (new_events (ICIE.triggerTest this) s)) <= 1
  /\ (forall executable testdir verdict,
        In (EvTest executable testdir verdict) (new_events (ICIE.triggerTest this) s) ->
        executable = exe /\ testdir = tests
        /\ result_of (ICIE.triggerTest this) s = verdict
        /\ exists before,
             new_events (ICIE.triggerTest this) s
               = before ++ [EvTest executable testdir verdict]).
Proof.
  unfold exe, tests.
  split; [|split; [|split]].
  - run_orchestrator; repeat constructor.
  - run_orchestrator; cbn; lia.
  - run_orchestrator; cbn; lia.
  - intros executable testdir verdict.
    run_orchestrator; intros Hin; close_membership;
      (split; [reflexivity | split; [reflexivity | split; [reflexivity|]]]);
      first [ exists []; reflexivity | eexists [_]; reflexivity
            | eexists [_; _]; reflexivity | eexists [_; _; _]; reflexivity
            | eexists [_; _; _; _]; reflexivity
            | eexists [_; _; _; _; _]; reflexivity
            | eexists [_; _; _; _; _; _]; reflexivity ].
Qed.

(** X5. The verdict of the freshness check can only go from "built" to
    "needs a build" when the source gets newer: with the same answer for
    the executable, a source at least as new as one that needed a build
    needs a build too. *)
Theorem requiresCompilation_monotone (s s' : State W) (older newer : Stats) :
  executable_stat this (world s') = executable_stat this (world s) ->
  source_stat this (world s) = Ok older ->
  source_stat this (world s') = Ok newer ->
  (mtime older <= mtime newer)%Z ->
  result_of (ICIE.requiresCompilation this) s = Ok true ->
  result_of (ICIE.requiresCompilation this) s' = Ok true.
Proof.
  intros Hexe Hold Hnew Hle.
  rewrite !requiresCompilation_result, Hexe, Hold, Hnew.
  destruct (executable_stat this (world s)) as [statexe|]; [|reflexivity].
  destruct (Z.leb_spec (mtime older) (mtime statexe)); [discriminate|].
  intros _. destruct (Z.leb_spec (mtime newer) (mtime statexe)); [lia | reflexivity].
Qed.

End Testing.

(** ** Submit, init and names *)

Section Submitting.

Context {W : Type} `{Platform W}.
Variable this : ICIE.t.

Let src := Directory.source (ICIE.dir this).
Let exe := Directory.executable (ICIE.dir this).
Let tests := Directory.testsDirectory (ICIE.dir this).

Ltac passed_test :=
  repeat match goal with
         | Hb : negb ?b = false |- _ => destruct b; [clear Hb | discriminate Hb]
         | Hb : negb ?b = true |- _ => destruct b; [discriminate Hb | clear Hb]
         end.

Ltac cut_events :=
  first
    [ exists []; eexists; eexists; split; [reflexivity|]
    | eexists [_]; eexists; eexists; split; [reflexivity|]
    | eexists [_; _]; eexists; eexists; split; [reflexivity|]
    | eexists [_; _; _]; eexists; eexists; split; [reflexivity|]
    | eexists [_; _; _; _]; eexists; eexists; split; [reflexivity|]
    | eexists [_; _; _; _; _]; eexists; eexists; split; [reflexivity|]
    | eexists [_; _; _; _; _; _]; eexists; eexists; split; [reflexivity|]
    | eexists [_; _; _; _; _; _; _]; eexists; eexists; split; [reflexivity|]
    | eexists [_; _; _; _; _; _; _; _]; eexists; eexists; split; [reflexivity|] ].

(** X6. A submit command reaches the worker only for the project's own
    source, only once per submit, and only right after the manifest has been
    loaded, which in turn happens only after the test command came back
    with a pass. *)
Theorem submit_sent_only_after_pass (s : State W) (source task_url : string)
    (challenge : option AuthRequest) :
  In (EvSubmit source task_url challenge) (new_events (ICIE.triggerSubmit this) s) ->
  source = src
  /\ exists before manifest_path after,
       new_events (ICIE.triggerSubmit this) s
         = before ++ EvManifestLoad manifest_path
                  :: EvSubmit source task_url challenge :: after
       /\ In (EvTest exe tests (Ok true)) before
       /\ Forall (fun e => is_submit e = false /\ is_manifest_load e = false) before
       /\ Forall (fun e => is_submit e = false /\ is_manifest_load e = false) after.
Proof.
  unfold src, exe, tests.
  run_orchestrator; intros Hin; close_membership; passed_test;
    (split; [reflexivity|]);
    cut_events;
    (split; [cbn [In]; repeat (first [left; reflexivity | right])|]);
    split; repeat constructor.
Qed.

(** X7. A submit is fulfilled only if the test passed, the submit command
    was sent, and, where the worker asked for credentials, an answer was
    sent back: it never reports success without having submitted. *)
Theorem submit_fulfilled_only_if_sent (s : State W) :
  result_of (ICIE.triggerSubmit this) s = Ok tt ->
  In (EvTest exe tests (Ok true)) (new_events (ICIE.triggerSubmit this) s)
  /\ exists task_url challenge,
       In (EvSubmit src task_url challenge) (new_events (ICIE.triggerSubmit this) s)
       /\ forall authreq,
            challenge = Some authreq ->
            exists resp,
              In (EvAuthResponse resp) (new_events (ICIE.triggerSubmit this) s).
Proof.
  unfold src, exe, tests.
  run_orchestrator; intros Hok; try discriminate Hok; passed_test;
    (split; [cbn [In]; repeat (first [left; reflexivity | right])|]);
    eexists _, _;
    (split; [cbn [In challenge_of]; repeat (first [left; reflexivity | right])|]);
    intros authreq Hc; cbn [challenge_of] in Hc; try discriminate Hc;
    eexists; cbn [In]; repeat (first [left; reflexivity | right]).
Qed.

(** X15. The manifest is looked for under the workspace folder as it is
    when the test has passed, not under the base the [ICIE] was made with:
    the path is that folder with [/.icie] appended, and with no folder it is
    [undefined/.icie]. *)
Theorem submit_manifest_path (s : State W) (manifest_path : string) :
  In (EvManifestLoad manifest_path) (new_events (ICIE.triggerSubmit this) s) ->
  manifest_path
  = js_string_of (vscode_rootPath (world_after (ICIE.triggerTest this) s)) +:+ "/.icie"
  /\ (vscode_rootPath (world_after (ICIE.triggerTest this) s) = None ->
      manifest_path = "undefined/.icie").
Proof.
  unfold world_after.
  run_orchestrator; intros Hin; close_membership;
    (split; [reflexivity | intros ->; reflexivity]).
Qed.

End Submitting.

Section Initialising.

Context {W : Type} `{Platform W}.

Lemma collision_not_mkdir (cs : list Event) (dir : string) :
  Forall collision cs -> ~ In (EvMkdir dir) cs.
Proof.
  intros Hc Hin. rewrite Forall_forall in Hc.
  apply list_elem_of_In in Hin.
  destruct (Hc _ Hin) as (h & n & _ & E). discriminate E.
Qed.

Lemma name_search_makes_nothing (tries : nat) (s : State W) :
  exists checks,
    trace (snd (ICIE.randomProjectName tries s)) = trace s ++ checks
    /\ Forall (fun e => is_mkdir e = false) checks.
Proof.
  assert (Hcol : forall cs, Forall collision cs ->
                            Forall (fun e => is_mkdir e = false) cs).
  { intros cs Hc. eapply Forall_impl; [exact Hc|].
    intros e (h & n & _ & ->). reflexivity. }
  destruct (randomProjectName_run tries s)
    as (cs & s1 & Hcs & _ & [(_ & E & Htr) | [(Hlen & h & n & Hn & E & Htr)
                                           | (_ & h & n & e & _ & E & Htr)]]);
    rewrite E; cbn [snd]; rewrite Htr; eexists; (split; [reflexivity|]).
  - auto.
  - apply Forall_app. split; [auto | repeat constructor].
  - apply Forall_app. split; [auto | repeat constructor].
Qed.

Ltac name_search_done :=
  match goal with
  | Hrun : ICIE.randomProjectName _ ?s0 = (Ok _, ?s1) |- _ =>
      let cs := fresh "collisions" in
      let h := fresh "home" in
      let Htr := fresh "Htrace" in
      destruct (randomProjectName_ok _ _ _ _ Hrun) as (cs & h & ? & ? & ? & Htr);
      cbn [trace] in Htr; rewrite Htr; clear Htr
  | Hrun : ICIE.randomProjectName ?n ?s0 = (Err _, ?s1) |- _ =>
      let cs := fresh "checks" in
      let Htr := fresh "Htrace" in
      destruct (name_search_makes_nothing n s0) as (cs & Htr & ?);
      rewrite Hrun in Htr; cbn [snd trace] in Htr; rewrite Htr; clear Htr
  end.

(** X8. An init creates at most one directory, and only right after the
    existence check that found its name free: the directory is that
    candidate name under the home directory, only earlier candidates that
    were taken come before, and what follows the creation, if anything,
    starts with the worker's init command for the URL the user typed and
    for that directory. *)
Theorem init_creates_only_free (s : State W) (dir : string) :
  In (EvMkdir dir) (new_events ICIE.triggerInit s) ->
  exists task_url before home_checked home name after,
    new_events ICIE.triggerInit s
      = EvShowInputBox (prompt_only "Task description URL: ") (Some task_url)
        :: before
        ++ [EvExists (home_checked +:+ "/" +:+ name) (Ok false); EvMkdir dir]
        ++ after
    /\ Forall collision before
    /\ length before < 5
    /\ In name candidates
    /\ dir = home +:+ "/" +:+ name
    /\ Forall (fun e => is_mkdir e = false) after
    /\ (after = []
        \/ exists challenge later, after = EvInit task_url dir challenge :: later).
Proof.
  unfold ICIE.triggerInit.
  run_orchestrator; try name_search_done; tidy_trace; intros Hin.
  all: destruct Hin as [Hin | Hin]; [discriminate Hin|].
  all: try contradiction.
  all: try (exfalso;
            match goal with
            | Hf : Forall _ ?cs, Hi : In _ ?cs |- _ =>
                rewrite Forall_forall in Hf; apply list_elem_of_In in Hi;
                specialize (Hf _ Hi); discriminate Hf
            end).
  all: apply in_app_or in Hin; destruct Hin as [Hin | Hin];
    [exfalso; eapply collision_not_mkdir; eassumption|].
  all: close_membership.
  all: eexists _, _, _, _, _, _; split; [reflexivity|].
  all: repeat (split; [eassumption || reflexivity || (repeat constructor) |]).
  all: first [left; reflexivity | right; eexists _, _; reflexivity].
Qed.

End Initialising.

(** ** Paths *)

Lemma append_empty_r (a : string) : a +:+ "" = a.
Proof.
  induction a as [|x a IH]; [reflexivity|]. rewrite append_cons. now f_equal.
Qed.

Lemma append_cancel_r (a b c : string) : a +:+ c = b +:+ c -> a = b.
Proof.
  revert b. induction a as [|x a IH]; intros b E.
  - destruct b as [|y b]; [reflexivity|].
    apply (f_equal String.length) in E. rewrite !length_append in E.
    cbn in E. lia.
  - destruct b as [|y b].
    + apply (f_equal String.length) in E. rewrite !length_append in E.
      cbn in E. lia.
    + rewrite !append_cons in E. injection E as -> E. f_equal. now apply IH.
Qed.

(** Two strings that are equal end on the same character. *)
Lemma append_last (a b : string) (x y : Ascii.ascii) :
  a +:+ String x "" = b +:+ String y "" -> x = y.
Proof.
  revert b. induction a as [|c a IH]; intros b E.
  - destruct b as [|d b]; [now injection E|].
    rewrite append_cons in E. cbn in E. injection E as _ E.
    destruct b; discriminate E.
  - destruct b as [|d b].
    + rewrite append_cons in E. cbn in E. injection E as _ E.
      destruct a; discriminate E.
    + rewrite !append_cons in E. injection E as _ E. now apply (IH b).
Qed.

Lemma executable_path (base : string) :
  Directory.executable (Directory.new base) = base +:+ "/main.e".
Proof.
  unfold Directory.executable, Directory.source. simpl.
  change (base +:+ "/main.cpp") with (base +:+ ("/main" +:+ ".cpp")).
  rewrite <- append_assoc.
  pose proof (js_substr_drop_suffix (base +:+ "/main") ".cpp") as E.
  change (Z.of_nat (String.length ".cpp")) with 4%Z in E.
  rewrite E. apply append_assoc.
Qed.

(** X13. The source, the executable and the tests directory of a project
    are three different paths, each of them determines the base it was
    derived from, and no path of one kind is a path of another kind for
    any other base either: a build never writes over a source, whatever the
    two projects. *)
Theorem Directory_paths_apart (base base' : string) :
  let d := Directory.new base in
  let d' := Directory.new base' in
  (Directory.source d = Directory.source d' -> base = base')
  /\ (Directory.executable d = Directory.executable d' -> base = base')
  /\ (Directory.testsDirectory d = Directory.testsDirectory d' -> base = base')
  /\ Directory.source d <> Directory.executable d'
  /\ Directory.source d <> Directory.testsDirectory d'
  /\ Directory.executable d <> Directory.testsDirectory d'.
Proof.
  cbv zeta. rewrite !executable_path.
  unfold Directory.source, Directory.testsDirectory. cbn [Directory.base Directory.new].
  repeat split.
  - apply append_cancel_r.
  - apply append_cancel_r.
  - apply append_cancel_r.
  - intros E.
    change (base +:+ "/main.cpp") with (base +:+ ("/main.cp" +:+ "p")) in E.
    change (base' +:+ "/main.e") with (base' +:+ ("/main." +:+ "e")) in E.
    rewrite <- !append_assoc in E. apply append_last in E. discriminate E.
  - intros E.
    change (base +:+ "/main.cpp") with (base +:+ ("/main.cp" +:+ "p")) in E.
    change (base' +:+ "/tests") with (base' +:+ ("/test" +:+ "s")) in E.
    rewrite <- !append_assoc in E. apply append_last in E. discriminate E.
  - intros E.
    change (base +:+ "/main.e") with (base +:+ ("/main." +:+ "e")) in E.
    change (base' +:+ "/tests") with (base' +:+ ("/test" +:+ "s")) in E.
    rewrite <- !append_assoc in E. apply append_last in E. discriminate E.
Qed.

(** ** Sending *)

Module BridgeProofs.

Import Bridge.

Lemma lines_one (l : list byte) :
  ~ In line_feed l ->
  forall current rest,
    lines current (l ++ line_feed :: rest) = (rev current ++ l) :: lines [] rest.
Proof.
  induction l as [|b l IH]; intros Hl current rest.
  - cbn. now rewrite app_nil_r.
  - cbn [app lines].
    destruct (Byte.eqb b line_feed) eqn:E.
    + apply Byte.byte_dec_bl in E. subst b. exfalso. apply Hl. now left.
    + rewrite IH by (intros Hin; apply Hl; now right).
      cbn [rev]. now rewrite <- app_assoc.
Qed.

Lemma lines_all (messages : list (list byte)) :
  Forall (fun m => ~ In line_feed m) messages ->
  lines [] (concat (map (fun m => m ++ [line_feed]) messages)) = messages.
Proof.
  induction 1 as [|m messages Hm _ IH]; [reflexivity|].
  cbn [map concat]. rewrite <- app_assoc. cbn [app].
  rewrite lines_one by assumption. cbn [rev app]. now rewrite IH.
Qed.

Lemma send_all_stdin (stringify : Impulse -> list byte) (impulses : list Impulse) :
  forall kid,
    stdin (send_all stringify impulses kid)
    = stdin kid ++ concat (map (fun i => stringify i ++ [line_feed]) impulses)
    /\ length (logged (send_all stringify impulses kid))
       = length (logged kid) + length impulses.
Proof.
  unfold send_all.
  induction impulses as [|i impulses IH]; intros kid; cbn [fold_left map concat].
  - rewrite app_nil_r. cbn [length]. split; [reflexivity | lia].
  - destruct (IH (send stringify i kid)) as (-> & ->).
    cbn [send stdin logged]. rewrite length_app, <- !app_assoc.
    cbn [length app]. split; [reflexivity | lia].
Qed.

(** What [send] writes with [JSON.stringify] for its renderer is read
    back line by line, however an impulse is laid out as a value. *)
Lemma send_all_json (to_value : Impulse -> Json.value) (impulses : list Impulse) :
  lines [] (stdin (send_all (fun i => Json.render (to_value i)) impulses spawn))
  = map (fun i => Json.render (to_value i)) impulses.
Proof.
  destruct (send_all_stdin (fun i => Json.render (to_value i)) impulses spawn)
    as (-> & _).
  cbn [stdin spawn app].
  rewrite <- (map_map (fun i => Json.render (to_value i))
                      (fun m => m ++ [line_feed])).
  apply lines_all. apply Forall_map, Forall_forall.
  intros i _. apply JsonProofs.render_one_line.
Qed.

End BridgeProofs.

(** X14. [send] frames one message per line, whatever [JSON.stringify]
    writes for an impulse as long as it holds no line feed: each send adds
    the text of its impulse and one line feed after all that was written
    before, and one console line; the lines the worker reads from a fresh
    process are the texts of the impulses sent, in the order of the sends.
    The compact text of a JSON value never holds a line feed (in a string
    it is written as the escape of a backslash and the letter n), so with
    that text for [JSON.stringify] the lines read are the texts sent,
    whatever strings the impulses carry and in whatever order their members
    are written. *)
Theorem send_one_line_each (stringify : Bridge.Impulse -> list byte)
    (impulses : list Bridge.Impulse) (kid : Bridge.Kid) :
  Forall (fun i => ~ In Bridge.line_feed (stringify i)) impulses ->
  Bridge.stdin (Bridge.send_all stringify impulses kid)
    = Bridge.stdin kid
      ++ concat (map (fun i => stringify i ++ [Bridge.line_feed]) impulses)
  /\ length (Bridge.logged (Bridge.send_all stringify impulses kid))
     = length (Bridge.logged kid) + length impulses
  /\ Bridge.lines [] (Bridge.stdin (Bridge.send_all stringify impulses Bridge.spawn))
     = map stringify impulses
  /\ (forall v : Json.value, ~ In Bridge.line_feed (Json.render v))
  /\ (forall to_value : Bridge.Impulse -> Json.value,
        Bridge.lines []
          (Bridge.stdin
             (Bridge.send_all (fun i => Json.render (to_value i))
                              impulses Bridge.spawn))
        = map (fun i => Json.render (to_value i)) impulses).
Proof.
  intros Hclean.
  destruct (BridgeProofs.send_all_stdin stringify impulses kid) as (Hin & Hlog).
  split; [exact Hin | split; [exact Hlog | split; [|split]]].
  - destruct (BridgeProofs.send_all_stdin stringify impulses Bridge.spawn) as (-> & _).
    cbn [Bridge.stdin Bridge.spawn app].
    rewrite <- (map_map stringify (fun m => m ++ [Bridge.line_feed])).
    apply BridgeProofs.lines_all.
    apply Forall_map. exact Hclean.
  - apply JsonProofs.render_one_line.
  - intros to_value. apply BridgeProofs.send_all_json.
Qed.

(** ** Concrete runs for the properties above *)

Lemma triggerTest_rebuilds_witness :
  exists verdict,
    new_events (ICIE.triggerTest Sim.icie) (Sim.boot Sim.project)
      = new_events (ICIE.requiresCompilation Sim.icie) (Sim.boot Sim.project)
        ++ [EvSaveAll; EvBuild "/w/main.cpp"; EvTest "/w/main.e" "/w/tests" verdict]
    /\ result_of (ICIE.triggerTest Sim.icie) (Sim.boot Sim.project) = verdict.
Proof.
  apply (triggerTest_rebuilds Sim.icie (Sim.boot Sim.project));
    vm_compute; reflexivity.
Defined.

Lemma triggerTest_stops_at_failed_build_witness :
  @result_of Sim.t bool (@ICIE.triggerTest Sim.t broken_compiler Sim.icie)
             (Sim.boot Sim.project)
  = Err (External "compilation failed").
Proof.
  apply (@triggerTest_stops_at_failed_build Sim.t broken_compiler Sim.icie
           (Sim.boot Sim.project) (External "compilation failed"));
    vm_compute; reflexivity.
Defined.

Lemma triggerTest_reuses_executable_witness :
  exists verdict,
    new_events (ICIE.triggerTest Sim.icie) (Sim.boot Sim.built)
      = [EvSaveAll; EvStat "/w/main.cpp" (source_stat Sim.icie Sim.built);
         EvStat "/w/main.e" (executable_stat Sim.icie Sim.built);
         EvTest "/w/main.e" "/w/tests" verdict]
    /\ result_of (ICIE.triggerTest Sim.icie) (Sim.boot Sim.built) = verdict.
Proof.
  apply (triggerTest_reuses_executable Sim.icie (Sim.boot Sim.built)).
  vm_compute; reflexivity.
Defined.

Lemma triggerTest_footprint_witness :
  result_of (ICIE.triggerTest Sim.icie) (Sim.boot Sim.built) = Ok true.
Proof.
  apply (proj2 (proj2 (proj2 (triggerTest_footprint Sim.icie (Sim.boot Sim.built))))
           "/w/main.e" "/w/tests" (Ok true)).
  vm_compute. repeat (first [left; reflexivity | right]).
Defined.

Lemma requiresCompilation_monotone_witness :
  result_of (ICIE.requiresCompilation Sim.icie) (Sim.boot edited_twice) = Ok true.
Proof.
  apply (requiresCompilation_monotone Sim.icie (Sim.boot edited_once)
           (Sim.boot edited_twice) {| mtime := 16 |} {| mtime := 18 |});
    vm_compute; solve [reflexivity | discriminate].
Defined.

Lemma submit_sent_only_after_pass_witness :
  "/w/main.cpp" = Directory.source (ICIE.dir Sim.icie)
  /\ exists before manifest_path after,
       new_events (ICIE.triggerSubmit Sim.icie) (Sim.boot Sim.answering)
         = before ++ EvManifestLoad manifest_path
                  :: EvSubmit "/w/main.cpp" "https://judge.example/task/1"
                              (Some Sim.judge) :: after
       /\ In (EvTest (Directory.executable (ICIE.dir Sim.icie))
                     (Directory.testsDirectory (ICIE.dir Sim.icie)) (Ok true)) before
       /\ Forall (fun e => is_submit e = false /\ is_manifest_load e = false) before
       /\ Forall (fun e => is_submit e = false /\ is_manifest_load e = false) after.
Proof.
  apply (submit_sent_only_after_pass Sim.icie (Sim.boot Sim.answering)).
  vm_compute. repeat (first [left; reflexivity | right]).
Defined.

Lemma submit_fulfilled_only_if_sent_witness :
  In (EvTest (Directory.executable (ICIE.dir Sim.icie))
             (Directory.testsDirectory (ICIE.dir Sim.icie)) (Ok true))
     (new_events (ICIE.triggerSubmit Sim.icie) (Sim.boot Sim.answering)).
Proof.
  apply (submit_fulfilled_only_if_sent Sim.icie (Sim.boot Sim.answering)).
  vm_compute; reflexivity.
Defined.

Lemma init_creates_only_free_witness :
  exists task_url before home_checked home name after,
    new_events ICIE.triggerInit (Sim.boot Sim.fresh_machine)
      = EvShowInputBox (prompt_only "Task description URL: ") (Some task_url)
        :: before
        ++ [EvExists (home_checked +:+ "/" +:+ name) (Ok false);
            EvMkdir "/home/u/kawaii-hedgehog"]
        ++ after
    /\ Forall collision before
    /\ length before < 5
    /\ In name candidates
    /\ "/home/u/kawaii-hedgehog" = home +:+ "/" +:+ name
    /\ Forall (fun e => is_mkdir e = false) after
    /\ (after = []
        \/ exists challenge later,
             after = EvInit task_url "/home/u/kawaii-hedgehog" challenge :: later).
Proof.
  apply (init_creates_only_free (Sim.boot Sim.fresh_machine)).
  vm_compute. repeat (first [left; reflexivity | right]).
Defined.


Lemma Directory_paths_apart_witness :
  "/w" = "/w" /\ Directory.source (Directory.new "/w") <> Directory.executable (Directory.new "/w").
Proof.
  destruct (Directory_paths_apart "/w" "/w") as (Hinj & _ & _ & Hapart & _).
  split; [exact (Hinj eq_refl) | exact Hapart].
Defined.

Lemma send_one_line_each_witness :
  Bridge.lines []
    (Bridge.stdin
       (Bridge.send_all (fun i => Json.render (Bridge.to_json i))
                        sample_impulses Bridge.spawn))
  = map (fun i => Json.render (Bridge.to_json i)) sample_impulses.
Proof.
  assert (Hclean : Forall (fun i => ~ In Bridge.line_feed
                                      (Json.render (Bridge.to_json i)))
                          sample_impulses).
  { repeat constructor; vm_compute; intuition discriminate. }
  exact (proj1 (proj2 (proj2
           (send_one_line_each (fun i => Json.render (Bridge.to_json i))
              sample_impulses Bridge.spawn Hclean)))).
Defined.

Lemma submit_manifest_path_witness :
  "undefined/.icie"
  = js_string_of (vscode_rootPath
                    (world_after (ICIE.triggerTest Sim.icie) (Sim.boot folder_closed)))
    +:+ "/.icie"
  /\ result_of (ICIE.triggerSubmit Sim.icie) (Sim.boot folder_closed)
     = Err (External "ManifestMissing").
Proof.
  split.
  - assert (Hin : In (EvManifestLoad "undefined/.icie")
                     (new_events (ICIE.triggerSubmit Sim.icie) (Sim.boot folder_closed)))
      by (vm_compute; repeat (first [left; reflexivity | right])).
    exact (proj1 (submit_manifest_path Sim.icie (Sim.boot folder_closed)
                    "undefined/.icie" Hin)).
  - vm_compute. reflexivity.
Defined.
